(** * The abalone preprocessing step: [pipelines/abalone/preprocess.py]

    The script is one straight line of glue: it takes the object-store
    path from the command line, loads the headerless table, fits and
    applies a scikit-learn [ColumnTransformer], puts the label column in
    front, shuffles and splits the rows 70/15/15, writes the three
    blocks and finally registers a feature group and ingests one record.

    The development follows that line.  Python exceptions are values of
    an error monad; the library calls the script makes (str.split,
    np.split, np.random.shuffle, SimpleImputer, StandardScaler,
    OneHotEncoder, ColumnTransformer, np.concatenate) are embedded with
    the behaviour their reference documentation gives them, under the
    names they have in the script. *)

From Stdlib Require Import ZArith QArith Ascii.
From Stdlib Require String.
From stdpp Require Import base list strings sorting gmap.

Local Open Scope stdpp_scope.

(** ** Python exceptions as an error monad *)

Inductive exn : Type :=
| IndexError
| ValueError
| ZeroDivisionError
| NotFittedError.

Inductive result (A : Type) : Type :=
| Ok (a : A)
| Raise (e : exn).
Arguments Ok {A} a.
Arguments Raise {A} e.

Global Instance result_ret : MRet result := λ A a, Ok a.
Global Instance result_bind : MBind result := λ A B k m,
  match m with
  | Ok a => k a
  | Raise e => Raise e
  end.

Definition is_Ok {A} (m : result A) : Prop := ∃ a, m = Ok a.

(** ** Python built-ins used on the command-line argument *)

Module Py.

(** [s.split(sep)] for a one-character separator: every occurrence of
    [sep] ends a segment, empty segments are kept, and the result has at
    least one element. *)
Fixpoint str_split (sep : ascii) (s : string) : list string :=
  match s with
  | EmptyString => [EmptyString]
  | String c s' =>
      if Ascii.eqb c sep then EmptyString :: str_split sep s'
      else match str_split sep s' with
           | h :: t => String c h :: t
           | [] => [String c EmptyString]
           end
  end.

(** [sep.join(l)]. *)
Fixpoint str_join (sep : string) (l : list string) : string :=
  match l with
  | [] => EmptyString
  | [x] => x
  | x :: rest => x +:+ sep +:+ str_join sep rest
  end.

(** [l[i]] for a non-negative index: IndexError out of range. *)
Definition getitem {A} (l : list A) (i : nat) : result A :=
  match l !! i with
  | Some x => Ok x
  | None => Raise IndexError
  end.

(** [l[i:]] for a non-negative start. *)
Definition slice_from {A} (l : list A) (i : nat) : list A := drop i l.

(** [l[i:j]] for non-negative bounds: empty when [j <= i], clipped to the
    length of [l]. *)
Definition slice {A} (l : list A) (i j : nat) : list A :=
  take (j - i) (drop i l).

End Py.

(** Lines 65-67: bucket and key taken from [--input-data]. *)
Definition slash : ascii := "/"%char.

Definition parse_input_data (input_data : string) : result (string * string) :=
  bucket ← Py.getitem (Py.str_split slash input_data) 2;
  Ok (bucket, Py.str_join "/" (Py.slice_from (Py.str_split slash input_data) 3)).

(** Number of separators in a string. *)
Fixpoint count_char (c : ascii) (s : string) : nat :=
  match s with
  | EmptyString => 0
  | String a s' => (if Ascii.eqb a c then 1 else 0) + count_char c s'
  end.


(** ** Binary64 arithmetic of the cut points

    [int(0.7 * len(X))] multiplies the double nearest to 0.7 by the row
    count converted to a double and truncates the rounded product.  Only
    non-negative finite values occur, so a float is a mantissa and a
    binary exponent; results are rounded to 53 significant bits, ties to
    even.  The exponent range is not modelled: a length is below 2^63,
    far from overflow, and every value here is 0 or at least 0.7. *)

Module Binary64.
Local Open Scope Z_scope.

Record float : Type := Float { mant : Z; expo : Z }.

(** Round [m * 2^e] (with [0 <= m]) to 53 significant bits, to nearest,
    ties to even. *)
Definition round53 (m e : Z) : float :=
  let d := Z.log2 m + 1 in
  if d <=? 53 then Float m e
  else
    let s := d - 53 in
    let q := m / 2 ^ s in
    let r := m mod 2 ^ s in
    let half := 2 ^ (s - 1) in
    let up := (half <? r) || ((r =? half) && Z.odd q) in
    Float (if up then q + 1 else q) (e + s).

(** [float(n)] for a Python int [n >= 0]. *)
Definition of_int (n : Z) : float := round53 n 0.

(** [a * b]. *)
Definition mul (a b : float) : float :=
  round53 (mant a * mant b) (expo a + expo b).

(** [int(x)]: truncation, which is the floor on non-negative values. *)
Definition to_int (x : float) : Z :=
  if 0 <=? expo x then mant x * 2 ^ expo x else mant x / 2 ^ (- expo x).

(** The value of a float whose exponent is not negative. *)
Definition int_value (x : float) : Z := mant x * 2 ^ expo x.

(** The literals [0.7] = 0x1.6666666666666p-1 and
    [0.85] = 0x1.b333333333333p-1. *)
Definition lit_0_7 : float := Float 6305039478318694 (-53).
Definition lit_0_85 : float := Float 7656119366529843 (-53).

End Binary64.

(** [int(0.7 * len(X))] and [int(0.85 * len(X))] of line 114. *)
Definition cut_0_7 (n : nat) : nat :=
  Z.to_nat (Binary64.to_int (Binary64.mul Binary64.lit_0_7 (Binary64.of_int (Z.of_nat n)))).
Definition cut_0_85 (n : nat) : nat :=
  Z.to_nat (Binary64.to_int (Binary64.mul Binary64.lit_0_85 (Binary64.of_int (Z.of_nat n)))).

(** The cut points the specification names: floors of the exact
    rationals 7n/10 and 85n/100. *)
Definition exact_cut_0_7 (n : nat) : nat := (7 * n) `div` 10.
Definition exact_cut_0_85 (n : nat) : nat := (85 * n) `div` 100.

(** ** NumPy: shuffle and split *)

Module Np.

Section rows.
Context {A : Type}.

(** One exchange of the shuffle loop:
    [if i == j: continue; buf = x[j]; x[j] = x[i]; x[i] = buf]. *)
Definition swap (x : list A) (i j : nat) : list A :=
  if decide (i = j) then x
  else match x !! i, x !! j with
       | Some xi, Some xj => <[i:=xj]> (<[j:=xi]> x)
       | _, _ => x
       end.

(** The bit generator is a function [g]: [g i] is the raw draw made at
    loop index [i]; [random_interval] brings it into [0..i]. *)
Definition random_interval (g : nat → nat) (i : nat) : nat := g i `mod` S i.

(** [for i in reversed(range(1, i0 + 1))]: exchange rows [i] and [j]. *)
Fixpoint shuffle_from (g : nat → nat) (i0 : nat) (x : list A) : list A :=
  match i0 with
  | 0 => x
  | S i' => shuffle_from g i' (swap x (S i') (random_interval g (S i')))
  end.

(** [np.random.shuffle(x)]: the rows of [x] are permuted along the first
    axis, in place; the model returns the new contents. *)
Definition random_shuffle (g : nat → nat) (x : list A) : list A :=
  shuffle_from g (length x - 1) x.

(** Second argument of [np.split]: a number of equal sections or a list
    of cut indices. *)
Inductive indices_or_sections : Type :=
| Sections (k : nat)
| Indices (l : list nat).

(** [sub_arys.append(sary[st:end])] over consecutive division points. *)
Fixpoint sub_arrays (x : list A) (st : nat) (div_points : list nat) : list (list A) :=
  match div_points with
  | [] => []
  | en :: rest => Py.slice x st en :: sub_arrays x en rest
  end.

(** [np.split(x, indices_or_sections)] along axis 0.  With a section
    count the length must divide evenly; with a list of indices the
    division points are [0], the indices and the length, and nothing is
    checked. *)
Definition split (x : list A) (ios : indices_or_sections) : result (list (list A)) :=
  let n := length x in
  match ios with
  | Sections k =>
      if decide (k = 0) then Raise ZeroDivisionError
      else if decide (n `mod` k = 0)
      then Ok (sub_arrays x 0 ((λ i, S i * (n `div` k)) <$> seq 0 k))
      else Raise ValueError
  | Indices l => Ok (sub_arrays x 0 (l ++ [n]))
  end.

End rows.

End Np.

(** [a, b, c = l]: unpacking into exactly three names. *)
Definition unpack3 {A} (l : list A) : result (A * A * A) :=
  match l with
  | [a; b; c] => Ok (a, b, c)
  | _ => Raise ValueError
  end.

(** Lines 113-114: shuffle the matrix, then cut it in three. *)
Definition shuffle_and_split {A} (g : nat → nat) (X : list A)
  : result (list A * list A * list A) :=
  let X' := Np.random_shuffle g X in
  parts ← Np.split X' (Np.Indices [cut_0_7 (length X'); cut_0_85 (length X')]);
  unpack3 parts.

(** ** The table and its schema (lines 24-47, 75-80) *)

(** A float64 cell is [None] when it is NaN, the missing value, and
    [Some x] otherwise.  The type [F] of the other float64 values and its
    arithmetic are a parameter: the statistics below are stated in terms
    of these operations and do not depend on how they round.  Cells are
    taken to be finite: an infinite entry is refused by the estimators'
    input validation, which is outside the model. *)
Class FloatOps (F : Type) : Type := {
  fzero : F;
  fone : F;
  fadd : F → F → F;
  fsub : F → F → F;
  fmul : F → F → F;
  fdiv : F → F → F;
  fsqrt : F → F;
  fle : F → F → bool;
  fof_nat : nat → F;
  (** [np.finfo(np.float64).eps] *)
  feps : F;
}.

Definition feature_columns_names : list string :=
  ["sex"; "length"; "diameter"; "height"; "whole_weight";
   "shucked_weight"; "viscera_weight"; "shell_weight"].
Definition label_column : string := "rings".

(** One line of the headerless file, typed by [feature_columns_dtype]
    and [label_column_dtype]: a string and eight floats. *)
Module Row.
Record t (F : Type) : Type := Build {
  sex : option string;
  length : option F;
  diameter : option F;
  height : option F;
  whole_weight : option F;
  shucked_weight : option F;
  viscera_weight : option F;
  shell_weight : option F;
  rings : option F;
}.
Arguments Build {F}.
Arguments sex {F}.
Arguments length {F}.
Arguments diameter {F}.
Arguments height {F}.
Arguments whole_weight {F}.
Arguments shucked_weight {F}.
Arguments viscera_weight {F}.
Arguments shell_weight {F}.
Arguments rings {F}.
End Row.

(** [l.remove(x)]: drops the first occurrence. *)
Fixpoint py_remove (x : string) (l : list string) : list string :=
  match l with
  | [] => []
  | y :: l' => if String.eqb x y then l' else y :: py_remove x l'
  end.

(** Lines 84-85 and 90. *)
Definition numeric_features : list string := py_remove "sex" feature_columns_names.
Definition categorical_features : list string := ["sex"].

(** [df[numeric_features]] and [df[categorical_features]], row by row. *)
Definition numeric_values {F} (r : Row.t F) : list (option F) :=
  [Row.length r; Row.diameter r; Row.height r; Row.whole_weight r;
   Row.shucked_weight r; Row.viscera_weight r; Row.shell_weight r].
Definition categorical_value {F} (r : Row.t F) : option string := Row.sex r.

(** A table without missing values in its numeric features. *)
Definition complete {F} (df : list (Row.t F)) : Prop :=
  Forall (λ r, Forall is_Some (numeric_values r)) df.

(** ** NumPy statistics and set routines *)

Module NpStat.

(** [np.unique] on strings: sort, then keep every element that differs
    from its predecessor. *)
Fixpoint keep_changes (prev : string) (l : list string) : list string :=
  match l with
  | [] => []
  | y :: l' => if String.eqb prev y then keep_changes y l' else y :: keep_changes y l'
  end.

Definition unique (l : list string) : list string :=
  match merge_sort String.le l with
  | [] => []
  | x :: l' => x :: keep_changes x l'
  end.

Section floats.
Context {F : Type} `{FloatOps F}.

Definition fle_rel : relation F := λ a b, Is_true (fle a b).

Definition fsum (l : list F) : F := foldl fadd fzero l.

(** [np.mean]; the caller guarantees a non-empty list. *)
Definition mean (l : list F) : F := fdiv (fsum l) (fof_nat (length l)).

(** Population variance, [ddof = 0]. *)
Definition var (l : list F) : F :=
  let mu := mean l in
  mean ((λ x, fmul (fsub x mu) (fsub x mu)) <$> l).

Definition std (l : list F) : F := fsqrt (var l).

(** [np.median]: the middle element of the sorted values, or the mean of
    the two middle ones; NaN ([None]) on no values. *)
Definition median (l : list F) : option F :=
  let s := merge_sort fle_rel l in
  let n := length s in
  if decide (n = 0) then None
  else if Nat.even n
  then a ← s !! (n `div` 2 - 1); b ← s !! (n `div` 2);
       Some (fdiv (fadd a b) (fof_nat 2))
  else s !! (n `div` 2).

End floats.
End NpStat.

(** ** scikit-learn estimators, as configured in lines 86-103 *)

Module Sklearn.

(** Column [j] of a row-major matrix. *)
Definition column {A} (j : nat) (X : list (list A)) : list A :=
  omap (λ row, row !! j) X.

(** Number of columns: the width of the first row. *)
Definition n_features {A} (X : list (list A)) : nat :=
  match X with
  | [] => 0
  | row :: _ => length row
  end.

Section estimators.
Context {F : Type} `{FloatOps F}.

(** *** [SimpleImputer(strategy="median")] *)

(** The values of a column that are not missing. *)
Definition observed (col : list (option F)) : list F := omap id col.

(** [fit]: one statistic per column, the median of its observed values,
    NaN when it has none.  At least one sample is required. *)
Definition median_imputer_fit (X : list (list (option F))) : result (list (option F)) :=
  if decide (X = []) then Raise ValueError
  else Ok ((λ j, NpStat.median (observed (column j X))) <$> seq 0 (n_features X)).

(** [transform] of one row: a column whose statistic is NaN is dropped,
    in the others a missing cell takes the statistic. *)
Definition median_imputer_row (statistics_ : list (option F)) (row : list (option F)) : list F :=
  omap (λ sc : option F * option F, s ← sc.1; Some (default s sc.2)) (zip statistics_ row).

(** Position, in the imputer's output, of input column [j]: the number
    of columns before it that are kept. *)
Definition kept_position (statistics_ : list (option F)) (j : nat) : nat :=
  length (observed (take j statistics_)).

Definition median_imputer_transform (statistics_ : list (option F))
    (X : list (list (option F))) : list (list F) :=
  median_imputer_row statistics_ <$> X.

(** *** [StandardScaler()] *)

(** [_handle_zeros_in_scale(scale, constant_mask)]: the scale of a
    constant feature is replaced by 1. *)
Definition handle_zeros_in_scale (scale : F) (constant_mask : bool) : F :=
  if constant_mask then fone else scale.

(** [_is_constant_feature(var, mean, n_samples)]: the variance is not
    above the error bound of its computation,
    [var <= n_samples * eps * var + (n_samples * mean * eps) ** 2]. *)
Definition is_constant_feature (var mean : F) (n_samples : nat) : bool :=
  let upper_bound :=
    fadd (fmul (fmul (fof_nat n_samples) feps) var)
         (fmul (fmul (fmul (fof_nat n_samples) mean) feps)
               (fmul (fmul (fof_nat n_samples) mean) feps)) in
  fle var upper_bound.

(** [scale_] of one column with [n_samples_seen_ = len(col)]: its
    standard deviation, or 1 when the test above holds. *)
Definition fitted_scale (col : list F) : F :=
  handle_zeros_in_scale (NpStat.std col)
    (is_constant_feature (NpStat.var col) (NpStat.mean col) (length col)).

Record scaler_params : Type := ScalerParams { mean_ : list F; scale_ : list F }.

(** [fit]: per column mean and scale; at least one sample and one
    feature are required. *)
Definition scaler_fit (X : list (list F)) : result scaler_params :=
  if decide (X = []) then Raise ValueError
  else if decide (n_features X = 0) then Raise ValueError
  else
    let cols := (λ j, column j X) <$> seq 0 (n_features X) in
    Ok (ScalerParams (NpStat.mean <$> cols)
          (fitted_scale <$> cols)).

Definition scale_value (mu s x : F) : F := fdiv (fsub x mu) s.

Definition scaler_row (p : scaler_params) (row : list F) : list F :=
  zip_with (λ (ms : F * F) x, scale_value ms.1 ms.2 x) (zip (mean_ p) (scale_ p)) row.

Definition scaler_transform (p : scaler_params) (X : list (list F)) : list (list F) :=
  scaler_row p <$> X.

(** *** [numeric_transformer]: imputer, then scaler *)

Record numeric_params : Type :=
  NumericParams { statistics_ : list (option F); scaler_ : scaler_params }.

Definition numeric_fit (X : list (list (option F))) : result numeric_params :=
  st ← median_imputer_fit X;
  sc ← scaler_fit (median_imputer_transform st X);
  Ok (NumericParams st sc).

Definition numeric_transform (p : numeric_params) (X : list (list (option F))) : list (list F) :=
  scaler_transform (scaler_ p) (median_imputer_transform (statistics_ p) X).

(** *** [SimpleImputer(strategy="constant", fill_value="missing")] *)

Definition constant_imputer (v : option string) : string := default "missing" v.

(** *** [OneHotEncoder] *)

Inductive handle_unknown : Type := HU_error | HU_ignore.

Definition onehot_fit (col : list string) : list string := NpStat.unique col.

Definition onehot_vector (categories_ : list string) (v : string) : list F :=
  (λ c, if String.eqb v c then fone else fzero) <$> categories_.

(** An unknown category raises under ["error"] and is encoded as zeros
    under ["ignore"]. *)
Definition onehot_value (hu : handle_unknown) (categories_ : list string) (v : string)
  : result (list F) :=
  if decide (v ∈ categories_) then Ok (onehot_vector categories_ v)
  else match hu with
       | HU_error => Raise ValueError
       | HU_ignore => Ok (replicate (length categories_) fzero)
       end.

Definition onehot_transform (hu : handle_unknown) (categories_ : list string)
    (col : list string) : result (list (list F)) :=
  mapM (onehot_value hu categories_) col.

(** Stored entries of the encoder's sparse output: one per known value. *)
Definition onehot_nnz (categories_ : list string) (col : list string) : nat :=
  length (filter (λ v, v ∈ categories_) col).

(** *** [categorical_transformer]: constant imputer, then one-hot
        encoder with [handle_unknown="ignore"] *)

Definition categorical_fit (col : list (option string)) : list string :=
  onehot_fit (constant_imputer <$> col).

Definition categorical_transform (categories_ : list string) (col : list (option string))
  : result (list (list F)) :=
  onehot_transform HU_ignore categories_ (constant_imputer <$> col).

(** *** [ColumnTransformer] with the "num" and "cat" transformers *)

(** The result of the transformer is a dense array or a sparse matrix;
    both are kept as rows of values. *)
Inductive matrix : Type :=
| Dense (rows : list (list F))
| Sparse (rows : list (list F)).

Definition matrix_rows (M : matrix) : list (list F) :=
  match M with Dense rows | Sparse rows => rows end.

Record fitted : Type := Fitted {
  num_ : numeric_params;
  categories_ : list string;
  sparse_output_ : bool;
}.

(** [density < sparse_threshold] with the default threshold 0.3, where
    [density = nnz / total].  The comparison is made on the exact
    fraction, which agrees with the float comparison as long as [total]
    is below 2^50. *)
Definition below_sparse_threshold (nnz total : nat) : bool :=
  bool_decide (10 * nnz < 3 * total).

(** [np.hstack] of the two blocks. *)
Definition hstack (Xs1 Xs2 : list (list F)) : list (list F) :=
  zip_with app Xs1 Xs2.

Definition wrap (sparse : bool) (rows : list (list F)) : matrix :=
  if sparse then Sparse rows else Dense rows.

(** [fit_transform]: fit both transformers on the table, transform it,
    decide from the density whether the stacked output is sparse. *)
Definition fit_transform (df : list (Row.t F)) : result (fitted * matrix) :=
  let Xnum := numeric_values <$> df in
  let Xcat := categorical_value <$> df in
  p ← numeric_fit Xnum;
  let Ynum := numeric_transform p Xnum in
  let cats := categorical_fit Xcat in
  Ycat ← categorical_transform cats Xcat;
  let n := length df in
  let nnz := n * n_features Ynum + onehot_nnz cats (constant_imputer <$> Xcat) in
  let total := n * n_features Ynum + n * length cats in
  let sparse := below_sparse_threshold nnz total in
  Ok (Fitted p cats sparse, wrap sparse (hstack Ynum Ycat)).

(** [transform] with fitted parameters; at least one sample is required. *)
Definition transform (f : fitted) (df : list (Row.t F)) : result matrix :=
  if decide (df = []) then Raise ValueError
  else
    let Ynum := numeric_transform (num_ f) (numeric_values <$> df) in
    Ycat ← categorical_transform (categories_ f) (categorical_value <$> df);
    Ok (wrap (sparse_output_ f) (hstack Ynum Ycat)).

(** The row a fitted transformer yields for one record: its numeric
    block followed by its one-hot block. *)
Definition numeric_row (p : numeric_params) (row : list (option F)) : list F :=
  scaler_row (scaler_ p) (median_imputer_row (statistics_ p) row).

Definition row_of (f : fitted) (r : Row.t F) : list F :=
  numeric_row (num_ f) (numeric_values r)
  ++ onehot_vector (categories_ f) (constant_imputer (categorical_value r)).

(** The estimator object: unfitted, or holding fitted parameters.  Its
    methods take the object and return it with their result. *)
Definition estimator : Type := option fitted.

Definition fit_transform_method (self : estimator) (df : list (Row.t F))
  : result matrix * estimator :=
  match fit_transform df with
  | Ok (f, M) => (Ok M, Some f)
  | Raise e => (Raise e, self)
  end.

Definition transform_method (self : estimator) (df : list (Row.t F))
  : result matrix * estimator :=
  match self with
  | None => (Raise NotFittedError, self)
  | Some f => (transform f df, self)
  end.

End estimators.
End Sklearn.

(** ** Lines 105-110: label in front of the transformed features *)

Section transform_step.
Context {F : Type} `{FloatOps F}.

(** [y.to_numpy().reshape(len(y), 1)]. *)
Definition y_pre (df : list (Row.t F)) : list (list (option F)) :=
  (λ r, [Row.rings r]) <$> df.

(** [np.concatenate((a, b), axis=1)] where [b] comes from the
    transformer: a sparse matrix is not an array of two dimensions and
    is refused, and the row counts must agree. *)
Definition concatenate_axis1 (a : list (list (option F))) (b : Sklearn.matrix)
  : result (list (list (option F))) :=
  match b with
  | Sklearn.Sparse _ => Raise ValueError
  | Sklearn.Dense rows =>
      if decide (length a = length rows)
      then Ok (zip_with (λ ra rb, ra ++ (Some <$> rb)) a rows)
      else Raise ValueError
  end.

(** [y = df.pop("rings"); X_pre = preprocess.fit_transform(df);
    X = np.concatenate((y_pre, X_pre), axis=1)]. *)
Definition transformed_matrix (df : list (Row.t F)) : result (list (list (option F))) :=
  fM ← Sklearn.fit_transform df;
  concatenate_axis1 (y_pre df) fM.2.

End transform_step.

(** ** The numeric columns of the output, read off the table

    What the numeric transformer is to deliver, written from the table
    alone and not from the fitted parameters: which features get a
    column, where, and with what value. *)

Section numeric_columns.
Context {F : Type} `{FloatOps F}.

(** Numeric feature [j] has a value in the table [df]: some record's
    cell for it is not missing. *)
Definition has_value (df : list (Row.t F)) (j : nat) : Prop :=
  Sklearn.observed (Sklearn.column j (numeric_values <$> df)) ≠ [].

Global Instance has_value_dec df j : Decision (has_value df j) :=
  decide (Sklearn.observed (Sklearn.column j (numeric_values <$> df)) ≠ []).

(** The number of numeric features before feature [j] that have a value
    in [df]. *)
Definition kept_before (df : list (Row.t F)) (j : nat) : nat :=
  length (filter (has_value df) (seq 0 j)).

(** The standardized value of a cell [c] of a feature whose fit column
    is [col], with [med] the median of the non-missing values of [col]:
    the gaps of [col] and of [c] are filled with [med], the mean of the
    filled column is subtracted, and the result is divided by the
    standard deviation of the filled column, or by 1 when its variance
    [v] is within [n * eps * v + (n * mean * eps) ** 2]. *)
Definition standardized (col : list (option F)) (med : F) (c : option F) : F :=
  let imputed := default med <$> col in
  let n := fof_nat (length imputed) in
  let mu := NpStat.mean imputed in
  let v := NpStat.var imputed in
  let bound := fadd (fmul (fmul n feps) v)
                    (fmul (fmul (fmul n mu) feps) (fmul (fmul n mu) feps)) in
  fdiv (fsub (default med c) mu) (if fle v bound then fone else fsqrt v).

End numeric_columns.

(** ** Lines 123-177: the feature group and the ingested record *)

Inductive feature_type : Type := FT_String | FT_Fractional.

Definition feature_definition : list (string * feature_type) :=
  [("sex", FT_String); ("length", FT_Fractional); ("diameter", FT_Fractional);
   ("height", FT_Fractional); ("whole_weight", FT_Fractional);
   ("shucked_weight", FT_Fractional); ("viscera_weight", FT_Fractional);
   ("shell_weight", FT_Fractional); ("EventTime", FT_Fractional)].

(** The [Record] argument of [put_record], as (FeatureName,
    ValueAsString) pairs.  It is written out in the call; neither the
    table [df_fs] nor [current_time_sec] enters it. *)
Definition put_record_Record {F} (df_fs : list (Row.t F)) (current_time_sec : Z)
  : list (string * string) :=
  [("sex", "String"); ("length", "11"); ("diameter", "11"); ("height", "11");
   ("whole_weight", "11"); ("shucked_weight", "11"); ("viscera_weight", "11");
   ("shell_weight", "11"); ("EventTime", "11")].

(** ** [merge_two_dicts] and the dtype tables (lines 37-54)

    Dicts are objects: a reference into a store of dict contents.
    [x.copy()] allocates a new object, [z.update(y)] overwrites the
    object [z] in place. *)

Inductive dtype : Type := Dt_str | Dt_float64.

Module PyDict.
Section dicts.
Context {V : Type}.

(** [x.copy()]: a new object holding the entries of [x].  [None] stands
    for a dangling reference, which Python cannot produce. *)
Definition copy (x : positive) (h : gmap positive (gmap string V))
  : option (positive * gmap positive (gmap string V)) :=
  d ← h !! x;
  let z := fresh (dom h) in
  Some (z, <[z := d]> h).

(** [z.update(y)]: every entry of [y] is written into [z]. *)
Definition update (z y : positive) (h : gmap positive (gmap string V))
  : option (gmap positive (gmap string V)) :=
  dz ← h !! z;
  dy ← h !! y;
  Some (<[z := dy ∪ dz]> h).

(** [z = x.copy(); z.update(y); return z]. *)
Definition merge_two_dicts (x y : positive) (h : gmap positive (gmap string V))
  : option (positive * gmap positive (gmap string V)) :=
  zh ← copy x h;
  h' ← update zh.1 y zh.2;
  Some (zh.1, h').

End dicts.
End PyDict.

Definition feature_columns_dtype : gmap string dtype :=
  list_to_map
    [("sex", Dt_str); ("length", Dt_float64); ("diameter", Dt_float64);
     ("height", Dt_float64); ("whole_weight", Dt_float64);
     ("shucked_weight", Dt_float64); ("viscera_weight", Dt_float64);
     ("shell_weight", Dt_float64)].
Definition label_column_dtype : gmap string dtype :=
  list_to_map [("rings", Dt_float64)].

(** The module-level dicts as the two first objects of the store. *)
Definition module_dicts : gmap positive (gmap string dtype) :=
  <[2%positive := label_column_dtype]> (<[1%positive := feature_columns_dtype]> ∅).

(** [names=] and [dtype=] of [pd.read_csv] (lines 78-79). *)
Definition read_csv_names : list string := feature_columns_names ++ [label_column].
Definition read_csv_dtype : option (gmap string dtype) :=
  zh ← PyDict.merge_two_dicts 1%positive 2%positive module_dicts;
  zh.2 !! zh.1.

(** The feature-store type a pandas dtype is declared with. *)
Definition feature_type_of (d : dtype) : feature_type :=
  match d with Dt_str => FT_String | Dt_float64 => FT_Fractional end.

(** ** The script as a whole (lines 57-177)

    Calls that leave the process are events; whether a call goes
    through, what the downloaded object parses to, the draws of the
    shuffle and the clock belong to the world the script runs in.  A run
    yields the events it got to, in order, and how it ended. *)

Module Run.
Section run.
Context {F : Type} `{FloatOps F}.

Inductive event : Type :=
| Mkdir (path : string)
| DownloadFile (bucket key fn : string)
| ReadCsv (fn : string)
| Unlink (fn : string)
| ToCsv (path : string) (rows : list (list (option F)))
| CreateFeatureGroup (name record_identifier event_time : string)
    (definitions : list (string * feature_type)) (description s3_uri role : string)
| Sleep (seconds : nat)
| PutRecord (name : string) (record : list (string * string)).

(** An exception of the script's own computation, or of a call. *)
Inductive failure : Type :=
| Exn (e : exn)
| Failed (ev : event).

Record world : Type := World {
  succeeds : event → bool;
  dataset : string → string → list (Row.t F);
  draws : nat → nat;
  now : Z;
}.

Definition eff (A : Type) : Type := list event * (failure + A).

Global Instance eff_ret : MRet eff := λ A a, ([], inr a).
Global Instance eff_bind : MBind eff := λ A B k m,
  match m with
  | (t1, inr a) => match k a with (t2, r) => (t1 ++ t2, r) end
  | (t1, inl e) => (t1, inl e)
  end.

(** A call: it is made, and raises when the world refuses it. *)
Definition call (w : world) (ev : event) : eff unit :=
  ([ev], if succeeds w ev then inr () else inl (Failed ev)).

(** A computation of the script itself. *)
Definition lift {A} (r : result A) : eff A :=
  ([], match r with Ok a => inr a | Raise e => inl (Exn e) end).

Definition base_dir : string := "/opt/ml/processing".
Definition fn : string := base_dir +:+ "/data/abalone-dataset.csv".
Definition train_path : string := base_dir +:+ "/train/train.csv".
Definition validation_path : string := base_dir +:+ "/validation/validation.csv".
Definition test_path : string := base_dir +:+ "/test/test.csv".

Definition feature_group_name : string := "case-feature-group-off".
Definition record_identifier_name : string := "sex".
Definition event_time_name : string := "EventTime".
Definition feature_description : string := "feature group for new items of Animation genre".
Definition offline_store_s3_uri : string := "s3://case172774495900973/".
Definition role : string :=
  "arn:aws:iam::713931074333:role/service-role/AmazonSageMaker-ExecutionRole-20241006T170081".

Definition create_feature_group : event :=
  CreateFeatureGroup feature_group_name record_identifier_name event_time_name
    feature_definition feature_description offline_store_s3_uri role.

(** The body under [if __name__ == "__main__"].  The table [df_fs] the
    script builds before the ingestion extends the rows of [df] by the
    time column; the ingested record reads neither. *)
Definition main (w : world) (input_data : string) : eff unit :=
  call w (Mkdir (base_dir +:+ "/data"));;
  bk ← lift (parse_input_data input_data);
  call w (DownloadFile bk.1 bk.2 fn);;
  call w (ReadCsv fn);;
  let df := dataset w bk.1 bk.2 in
  call w (Unlink fn);;
  X ← lift (transformed_matrix df);
  parts ← lift (shuffle_and_split (draws w) X);
  call w (ToCsv train_path parts.1.1);;
  call w (ToCsv validation_path parts.1.2);;
  call w (ToCsv test_path parts.2);;
  call w create_feature_group;;
  call w (Sleep 60);;
  call w (PutRecord feature_group_name (put_record_Record df (now w))).

(** The events of a run that gets through, for a bucket, a key, the
    table read and the three blocks written. *)
Definition complete_run (w : world) (bucket key : string)
    (train validation test : list (list (option F))) : list event :=
  [Mkdir (base_dir +:+ "/data"); DownloadFile bucket key fn; ReadCsv fn; Unlink fn;
   ToCsv train_path train; ToCsv validation_path validation; ToCsv test_path test;
   create_feature_group; Sleep 60;
   PutRecord feature_group_name (put_record_Record (dataset w bucket key) (now w))].

End run.
End Run.

(** ** Exact rationals as float values

    An interpretation of [FloatOps] without rounding, used to run the
    model on concrete tables.  Results are kept in lowest terms; the
    square root is exact on squares of rationals; [feps] is the binary64
    machine epsilon 2^-52. *)

Definition Qsqrt (a : Q) : Q :=
  Qred (Z.sqrt (Qnum a * Zpos (Qden a)) # Qden a).

Global Instance Q_FloatOps : FloatOps Q := {|
  fzero := 0%Q;
  fone := 1%Q;
  fadd a b := Qred (a + b);
  fsub a b := Qred (a - b);
  fmul a b := Qred (a * b);
  fdiv a b := Qred (a / b);
  fsqrt := Qsqrt;
  fle := Qle_bool;
  fof_nat n := inject_Z (Z.of_nat n);
  feps := 1 # 4503599627370496;
|}.

(** A row of the abalone file with integer entries. *)
Definition Qrow (sex : option string) (l d h ww sw vw shw r : option Z) : Row.t Q :=
  Row.Build sex (inject_Z <$> l) (inject_Z <$> d) (inject_Z <$> h) (inject_Z <$> ww)
    (inject_Z <$> sw) (inject_Z <$> vw) (inject_Z <$> shw) (inject_Z <$> r).

(** Three complete records, one per sex, and a fourth whose sex is not
    among theirs. *)
Definition sample_table : list (Row.t Q) :=
  [Qrow (Some "M") (Some 91) (Some 73) (Some 19) (Some 103) (Some 45) (Some 20) (Some 30) (Some 15);
   Qrow (Some "F") (Some 106) (Some 84) (Some 27) (Some 135) (Some 51) (Some 28) (Some 42) (Some 9);
   Qrow (Some "I") (Some 66) (Some 51) (Some 16) (Some 41) (Some 18) (Some 8) (Some 11) (Some 7)]%Z.

Definition sample_unseen : Row.t Q :=
  (Qrow (Some "U") (Some 88) (Some 73) (Some 25) (Some 103) (Some 43) (Some 23) (Some 31) (Some 10))%Z.

(** Fitted parameters for the seven numeric features and a vocabulary of
    three sexes. *)
Definition sample_fitted : Sklearn.fitted (F:=Q) :=
  Sklearn.Fitted
    (Sklearn.NumericParams
       (Some <$> [88; 70; 20; 93; 38; 19; 28]%Q)
       (Sklearn.ScalerParams [88; 70; 20; 93; 38; 19; 28]%Q
          [16; 14; 5; 39; 14; 8; 13]%Q))
    ["F"; "I"; "M"] false.

(** Two records in which no height was measured and both lengths are
    the same. *)
Definition table_gaps : list (Row.t Q) :=
  [Qrow (Some "M") (Some 2) (Some 1) None (Some 4) (Some 1) (Some 2) (Some 3) (Some 10);
   Qrow (Some "F") (Some 2) (Some 3) None (Some 8) (Some 5) (Some 4) None (Some 8)]%Z.

(** Twenty complete records, each with a sex code of its own. *)
Definition table_twenty : list (Row.t Q) :=
  (λ s, Qrow (Some s) (Some 91) (Some 73) (Some 19) (Some 103) (Some 45)
          (Some 20) (Some 30) (Some 15))%Z
    <$> ["a"; "b"; "c"; "d"; "e"; "f"; "g"; "h"; "i"; "j";
         "k"; "l"; "m"; "n"; "o"; "p"; "q"; "r"; "s"; "t"].

(** Two worlds in which every call goes through and no draw moves a
    row: one serves the three sample records, the other the table of
    twenty sex codes. *)
Definition sample_world : Run.world (F:=Q) :=
  Run.World (λ _, true) (λ _ _, sample_table) (λ j, j) 1730000000.
Definition twenty_world : Run.world (F:=Q) :=
  Run.World (λ _, true) (λ _ _, table_twenty) (λ j, j) 1730000000.
Definition sample_input_data : string :=
  "s3://sagemaker-bucket/abalone/abalone-dataset.csv".

(** * Properties *)

(** ** The command-line argument *)

Section split_join.

Lemma str_split_nonempty sep s : Py.str_split sep s ≠ [].
Proof.
  destruct s as [|c s]; simpl; [done|].
  destruct (Ascii.eqb c sep); [done|].
  by destruct (Py.str_split sep s).
Qed.

Lemma str_split_length sep s :
  length (Py.str_split sep s) = S (count_char sep s).
Proof.
  induction s as [|c s IH]; simpl; [done|].
  destruct (Ascii.eqb c sep); simpl; [by rewrite IH|].
  pose proof (str_split_nonempty sep s).
  destruct (Py.str_split sep s); [done|]. simpl in *. lia.
Qed.

Lemma str_split_free sep s :
  count_char sep s = 0 → Py.str_split sep s = [s].
Proof.
  induction s as [|c s IH]; simpl; [done|].
  destruct (Ascii.eqb c sep); simpl; [done|].
  intros H. by rewrite IH.
Qed.

(** Splitting [s1 sep s2] gives the segments of [s1] followed by those
    of [s2]. *)
Lemma str_split_app sep s1 s2 :
  Py.str_split sep (s1 +:+ String sep s2)
  = Py.str_split sep s1 ++ Py.str_split sep s2.
Proof.
  induction s1 as [|c s1 IH]; simpl.
  - by rewrite Ascii.eqb_refl.
  - destruct (Ascii.eqb c sep); simpl; [by rewrite IH|].
    rewrite IH.
    pose proof (str_split_nonempty sep s1).
    by destruct (Py.str_split sep s1).
Qed.

Lemma str_join_cons sep x y l :
  Py.str_join sep (x :: y :: l) = x +:+ sep +:+ Py.str_join sep (y :: l).
Proof. done. Qed.

Lemma string_app_cons c s t : String c s +:+ t = String c (s +:+ t).
Proof. done. Qed.

(** Joining the segments with the separator gives the string back. *)
Lemma str_join_split sep s :
  Py.str_join (String sep EmptyString) (Py.str_split sep s) = s.
Proof.
  induction s as [|c s IH]; simpl; [done|].
  destruct (Ascii.eqb_spec c sep) as [->|Hne].
  - pose proof (str_split_nonempty sep s).
    destruct (Py.str_split sep s) as [|h t] eqn:E; [done|].
    rewrite str_join_cons, IH. done.
  - pose proof (str_split_nonempty sep s).
    destruct (Py.str_split sep s) as [|h t] eqn:E; [done|].
    destruct t as [|h' t].
    + simpl in *. by rewrite IH.
    + rewrite str_join_cons, string_app_cons.
      rewrite str_join_cons in IH. by rewrite IH.
Qed.

End split_join.


Lemma parse_input_data_segments scheme bucket key :
  count_char slash scheme = 1 →
  count_char slash bucket = 0 →
  Py.str_split slash (scheme +:+ "/" +:+ bucket +:+ "/" +:+ key)
  = Py.str_split slash scheme ++ [bucket] ++ Py.str_split slash key.
Proof.
  intros _ Hb.
  change (scheme +:+ "/" +:+ bucket +:+ "/" +:+ key)
    with (scheme +:+ String slash (bucket +:+ String slash key)).
  by rewrite !str_split_app, (str_split_free _ bucket Hb).
Qed.

(** C8 (as amended): when the part before the bucket holds exactly one
    separator of its own, as the ["s3:/"] of ["s3://bucket/key"], the
    third segment is taken as the bucket and everything after it,
    separators included, as the key. *)
Theorem parse_input_data_bucket_key scheme bucket key :
  count_char slash scheme = 1 →
  count_char slash bucket = 0 →
  parse_input_data (scheme +:+ "/" +:+ bucket +:+ "/" +:+ key) = Ok (bucket, key).
Proof.
  intros Hs Hb. unfold parse_input_data.
  rewrite (parse_input_data_segments _ _ _ Hs Hb).
  pose proof (str_split_length slash scheme) as Hlen. rewrite Hs in Hlen.
  unfold Py.getitem, Py.slice_from.
  rewrite lookup_app_r, Hlen by lia. simpl.
  rewrite drop_app_ge, Hlen by lia. simpl.
  rewrite drop_0. f_equal. f_equal. apply (str_join_split slash).
Qed.

Lemma parse_input_data_bucket_key_witness :
  parse_input_data "s3://sagemaker-bucket/abalone/abalone-dataset.csv"
  = Ok ("sagemaker-bucket", "abalone/abalone-dataset.csv").
Proof.
  apply (parse_input_data_bucket_key "s3:/" "sagemaker-bucket"
           "abalone/abalone-dataset.csv"); reflexivity.
Defined.

(** C8, as stated, fails when the scheme is a single segment: the third
    segment is then the first part of the key. *)
Lemma parse_input_data_single_segment_scheme :
  count_char slash "s3" = 0 ∧ count_char slash "sagemaker-bucket" = 0 ∧
  parse_input_data ("s3" +:+ "/" +:+ "sagemaker-bucket" +:+ "/" +:+ "abalone/abalone-dataset.csv")
  = Ok ("abalone", "abalone-dataset.csv") ∧
  parse_input_data ("s3" +:+ "/" +:+ "sagemaker-bucket" +:+ "/" +:+ "abalone/abalone-dataset.csv")
  ≠ Ok ("sagemaker-bucket", "abalone/abalone-dataset.csv").
Proof. repeat split; [reflexivity..|discriminate]. Qed.

(** Fewer than three segments: the subscript raises. *)
Lemma parse_input_data_short input_data :
  count_char slash input_data < 2 → parse_input_data input_data = Raise IndexError.
Proof.
  intros Hc. unfold parse_input_data, Py.getitem.
  rewrite lookup_ge_None_2; [done|].
  rewrite str_split_length. lia.
Qed.

(** ** Rounding in the cut points *)

Section binary64.
Import Binary64.
Local Open Scope Z_scope.

(** Rounding keeps the sign, never lowers the exponent and moves the
    value by at most one part in 2^53. *)
Lemma round53_spec m e :
  0 ≤ m →
  ∃ s, 0 ≤ s ∧ expo (round53 m e) = e + s ∧ 0 ≤ mant (round53 m e) ∧
       (2 ^ 53 - 1) * m ≤ 2 ^ 53 * (mant (round53 m e) * 2 ^ s) ∧
       2 ^ 53 * (mant (round53 m e) * 2 ^ s) ≤ (2 ^ 53 + 1) * m.
Proof.
  intros Hm. unfold round53. cbv zeta.
  destruct (Z.leb_spec (Z.log2 m + 1) 53) as [Hd|Hd].
  { exists 0. simpl. change (2 ^ 53) with 9007199254740992. lia. }
  set (s := Z.log2 m + 1 - 53). exists s.
  assert (0 < m) as Hpos.
  { destruct (Z.eq_dec m 0) as [->|]; [simpl in Hd; lia|lia]. }
  assert (0 < s) as Hs by (unfold s; lia).
  destruct (Z.log2_spec m Hpos) as [Hlo _].
  assert (2 ^ Z.log2 m = 2 ^ 53 * 2 ^ (s - 1)) as Hpow.
  { rewrite <- Z.pow_add_r by lia. f_equal. unfold s. lia. }
  assert (2 ^ s = 2 * 2 ^ (s - 1)) as Hs2.
  { replace s with (Z.succ (s - 1)) at 1 by lia. apply Z.pow_succ_r. lia. }
  assert (0 < 2 ^ (s - 1)) as Hhalf by (apply Z.pow_pos_nonneg; lia).
  pose proof (Z.div_mod m (2 ^ s) ltac:(lia)) as Hdm.
  pose proof (Z.mod_pos_bound m (2 ^ s) ltac:(lia)) as Hr.
  assert (0 ≤ m / 2 ^ s) as Hq by (apply Z.div_pos; lia).
  rewrite Hpow in Hlo. rewrite Hs2 in *.
  set (half := 2 ^ (s - 1)) in *.
  set (q := m / (2 * half)) in *. set (r := m mod (2 * half)) in *.
  change (2 ^ 53) with 9007199254740992 in *.
  split; [lia|]. split; [simpl; done|].
  destruct (Z.ltb_spec half r) as [Hup|Hup]; simpl.
  - nia.
  - destruct (Z.eqb_spec r half) as [Heq|Hne]; simpl.
    + destruct (Z.odd q); simpl; nia.
    + nia.
Qed.

Lemma to_int_scaled x :
  -53 ≤ expo x → to_int x = (mant x * 2 ^ (expo x + 53)) / 2 ^ 53.
Proof.
  intros He. unfold to_int.
  destruct (Z.leb_spec 0 (expo x)) as [Hp|Hn].
  - rewrite Z.pow_add_r by lia. rewrite Z.mul_assoc, Z.div_mul; [done|].
    apply Z.pow_nonzero; lia.
  - replace (2 ^ 53) with (2 ^ (- expo x) * 2 ^ (expo x + 53)).
    + rewrite Z.div_mul_cancel_r; [done| |]; apply Z.pow_nonzero; lia.
    + rewrite <- Z.pow_add_r by lia. f_equal. lia.
Qed.

(** The row count as a double is within one part in 2^53 of it. *)
Lemma of_int_spec n :
  0 ≤ n →
  0 ≤ expo (of_int n) ∧ 0 ≤ mant (of_int n) ∧
  (2 ^ 53 - 1) * n ≤ 2 ^ 53 * int_value (of_int n) ∧
  2 ^ 53 * int_value (of_int n) ≤ (2 ^ 53 + 1) * n.
Proof.
  intros Hn. unfold of_int, int_value.
  destruct (round53_spec n 0 Hn) as (s & Hs & -> & Hm & Hlo & Hhi).
  rewrite Z.add_0_l. repeat split; [lia|done..].
Qed.

(** The truncated product, as a quotient of a scaled integer that is
    within one part in 2^53 of the exact product. *)
Lemma to_int_mul_spec a n :
  0 ≤ a → 0 ≤ n →
  ∃ S, to_int (mul (Float a (-53)) (of_int n)) = S / 2 ^ 53 ∧
       (2 ^ 53 - 1) * (a * int_value (of_int n)) ≤ 2 ^ 53 * S ∧
       2 ^ 53 * S ≤ (2 ^ 53 + 1) * (a * int_value (of_int n)).
Proof.
  intros Ha Hn.
  destruct (of_int_spec n Hn) as (Hen & Hmn & _ & _).
  unfold mul, int_value. cbn [mant expo].
  set (qn := mant (of_int n)) in *. set (en := expo (of_int n)) in *.
  destruct (round53_spec (a * qn) (-53 + en) ltac:(nia))
    as (s & Hs & He & Hm & Hlo & Hhi).
  set (y := round53 (a * qn) (-53 + en)) in *.
  exists (mant y * 2 ^ s * 2 ^ en). split.
  - rewrite to_int_scaled by lia. rewrite He.
    replace (-53 + en + s + 53) with (s + en) by lia.
    rewrite Z.pow_add_r by lia. by rewrite Z.mul_assoc.
  - assert (0 < 2 ^ en) as Hp by (apply Z.pow_pos_nonneg; lia).
    change (2 ^ 53) with 9007199254740992 in *.
    split; nia.
Qed.

End binary64.

(** The two cut points are ordered and within the row count, whatever
    the rounding does. *)
Lemma cut_points_ordered n : cut_0_7 n ≤ cut_0_85 n ∧ cut_0_85 n ≤ n.
Proof.
  unfold cut_0_7, cut_0_85, Binary64.lit_0_7, Binary64.lit_0_85.
  destruct (to_int_mul_spec 6305039478318694 (Z.of_nat n))
    as (S1 & -> & Hlo1 & Hhi1); [lia..|].
  destruct (to_int_mul_spec 7656119366529843 (Z.of_nat n))
    as (S2 & -> & Hlo2 & Hhi2); [lia..|].
  destruct (of_int_spec (Z.of_nat n)) as (_ & _ & Hvlo & Hvhi); [lia|].
  set (v := Binary64.int_value (Binary64.of_int (Z.of_nat n))) in *.
  change (2 ^ 53)%Z with 9007199254740992%Z in *.
  assert (S1 / 9007199254740992 ≤ S2 / 9007199254740992)%Z
    by (apply Z.div_le_mono; lia).
  assert (S2 / 9007199254740992 ≤ Z.of_nat n)%Z
    by (apply Z.div_le_upper_bound; lia).
  lia.
Qed.

(** Against the exact floors the binary64 cut points are never above
    and at most one below, for any row count a machine can hold. *)
Lemma cut_points_near_exact n :
  (Z.of_nat n < 2 ^ 49)%Z →
  exact_cut_0_7 n - 1 ≤ cut_0_7 n ∧ cut_0_7 n ≤ exact_cut_0_7 n ∧
  exact_cut_0_85 n - 1 ≤ cut_0_85 n ∧ cut_0_85 n ≤ exact_cut_0_85 n.
Proof.
  intros Hn.
  unfold cut_0_7, cut_0_85, Binary64.lit_0_7, Binary64.lit_0_85,
    exact_cut_0_7, exact_cut_0_85.
  destruct (to_int_mul_spec 6305039478318694 (Z.of_nat n))
    as (S1 & -> & Hlo1 & Hhi1); [lia..|].
  destruct (to_int_mul_spec 7656119366529843 (Z.of_nat n))
    as (S2 & -> & Hlo2 & Hhi2); [lia..|].
  destruct (of_int_spec (Z.of_nat n)) as (_ & _ & Hvlo & Hvhi); [lia|].
  set (v := Binary64.int_value (Binary64.of_int (Z.of_nat n))) in *.
  change (2 ^ 53)%Z with 9007199254740992%Z in *.
  change (2 ^ 49)%Z with 562949953421312%Z in *.
  pose proof (Z.div_mod S1 9007199254740992 ltac:(lia)) as Hd1.
  pose proof (Z.mod_pos_bound S1 9007199254740992 ltac:(lia)) as Hm1.
  pose proof (Z.div_mod S2 9007199254740992 ltac:(lia)) as Hd2.
  pose proof (Z.mod_pos_bound S2 9007199254740992 ltac:(lia)) as Hm2.
  pose proof (Nat.div_mod_eq (7 * n) 10) as He1.
  pose proof (Nat.mod_upper_bound (7 * n) 10 ltac:(lia)) as Hr1.
  pose proof (Nat.div_mod_eq (85 * n) 100) as He2.
  pose proof (Nat.mod_upper_bound (85 * n) 100 ltac:(lia)) as Hr2.
  set (q1 := (S1 / 9007199254740992)%Z) in *.
  set (q2 := (S2 / 9007199254740992)%Z) in *.
  set (r1 := (S1 `mod` 9007199254740992)%Z) in *.
  set (r2 := (S2 `mod` 9007199254740992)%Z) in *.
  set (e1 := (7 * n) `div` 10) in *. set (m1 := (7 * n) `mod` 10) in *.
  set (e2 := (85 * n) `div` 100) in *. set (m2 := (85 * n) `mod` 100) in *.
  lia.
Qed.

(** ** The splitter *)

(** The binary64 cut points against the exact floors: they agree on the
    4177 rows of the abalone file and on every row count below 90. *)
Lemma cut_points_abalone :
  cut_0_7 4177 = 2923 ∧ exact_cut_0_7 4177 = 2923 ∧
  cut_0_85 4177 = 3550 ∧ exact_cut_0_85 4177 = 3550.
Proof. vm_compute. done. Qed.

Lemma cut_points_exact_below_90 n :
  n < 90 → cut_0_7 n = exact_cut_0_7 n ∧ cut_0_85 n = exact_cut_0_85 n.
Proof.
  intros Hn.
  assert (forallb (λ n, Nat.eqb (cut_0_7 n) (exact_cut_0_7 n)
                        && Nat.eqb (cut_0_85 n) (exact_cut_0_85 n)) (seq 0 90) = true)
    as Hall by (vm_compute; reflexivity).
  rewrite forallb_forall in Hall.
  specialize (Hall n). rewrite in_seq in Hall.
  specialize (Hall ltac:(lia)).
  apply andb_true_iff in Hall as [H1 H2].
  by apply Nat.eqb_eq in H1, H2.
Qed.

Section splitter.
Context {A : Type}.
Implicit Types (x X : list A) (g : nat → nat).

Lemma swap_Permutation x i j : Np.swap x i j ≡ₚ x.
Proof.
  unfold Np.swap. case_decide; [done|].
  destruct (x !! i) as [xi|] eqn:Hi; [|done].
  destruct (x !! j) as [xj|] eqn:Hj; [|done].
  by apply Permutation_insert_swap.
Qed.

Lemma shuffle_from_Permutation g i x : Np.shuffle_from g i x ≡ₚ x.
Proof.
  revert x. induction i as [|i IH]; intros x; simpl; [done|].
  by rewrite IH, swap_Permutation.
Qed.

Lemma random_shuffle_Permutation g x : Np.random_shuffle g x ≡ₚ x.
Proof. apply shuffle_from_Permutation. Qed.

Lemma random_shuffle_length g x : length (Np.random_shuffle g x) = length x.
Proof. by rewrite random_shuffle_Permutation. Qed.

(** With ordered indices inside the array, [np.split] cuts it into a
    prefix, a middle block and the rest. *)
Lemma split_two_indices x c1 c2 :
  c1 ≤ c2 → c2 ≤ length x →
  Np.split x (Np.Indices [c1; c2])
  = Ok [take c1 x; take (c2 - c1) (drop c1 x); drop c2 x].
Proof.
  intros H1 H2. unfold Np.split. simpl. unfold Py.slice.
  rewrite drop_0, Nat.sub_0_r.
  rewrite (take_ge (drop c2 x)) by (rewrite length_drop; lia).
  done.
Qed.

Lemma shuffle_and_split_eq g X :
  let X' := Np.random_shuffle g X in
  let c1 := cut_0_7 (length X) in
  let c2 := cut_0_85 (length X) in
  shuffle_and_split g X
  = Ok (take c1 X', take (c2 - c1) (drop c1 X'), drop c2 X').
Proof.
  intros X' c1 c2. unfold shuffle_and_split. fold X'.
  rewrite (random_shuffle_length g X : length X' = length X). fold c1 c2.
  destruct (cut_points_ordered (length X)) as [H1 H2]. fold c1 c2 in H1, H2.
  assert (c2 ≤ length X') as H2' by (unfold X'; by rewrite random_shuffle_length).
  by rewrite (split_two_indices X' c1 c2 H1 H2').
Qed.

Lemma three_blocks x c1 c2 :
  c1 ≤ c2 → take c1 x ++ take (c2 - c1) (drop c1 x) ++ drop c2 x = x.
Proof.
  intros H12.
  replace (drop c2 x) with (drop (c2 - c1) (drop c1 x))
    by (rewrite drop_drop; f_equal; lia).
  by rewrite take_drop, take_drop.
Qed.

(** C2 (as amended): the three blocks have [int(0.7 * n)],
    [int(0.85 * n) - int(0.7 * n)] and [n - int(0.85 * n)] rows, the
    products being taken in binary64 as the script takes them, and the
    sizes add up to [n].  For [n] below 2^49 each of the two cut points
    is the exact floor or one less, and for [n] below 90 it is the
    exact floor. *)
Theorem shuffle_and_split_sizes g X :
  ∃ train validation test,
    shuffle_and_split g X = Ok (train, validation, test) ∧
    length train = cut_0_7 (length X) ∧
    length validation = cut_0_85 (length X) - cut_0_7 (length X) ∧
    length test = length X - cut_0_85 (length X) ∧
    length train + length validation + length test = length X ∧
    ((Z.of_nat (length X) < 2 ^ 49)%Z →
     exact_cut_0_7 (length X) - 1 ≤ cut_0_7 (length X) ≤ exact_cut_0_7 (length X) ∧
     exact_cut_0_85 (length X) - 1 ≤ cut_0_85 (length X) ≤ exact_cut_0_85 (length X)) ∧
    (length X < 90 →
     cut_0_7 (length X) = exact_cut_0_7 (length X) ∧
     cut_0_85 (length X) = exact_cut_0_85 (length X)).
Proof.
  eexists _, _, _. split; [apply shuffle_and_split_eq|].
  destruct (cut_points_ordered (length X)) as [H1 H2].
  rewrite !length_take, !length_drop, random_shuffle_length.
  repeat split; try lia.
  - by destruct (cut_points_near_exact (length X)) as (? & _).
  - by destruct (cut_points_near_exact (length X)) as (_ & ? & _).
  - by destruct (cut_points_near_exact (length X)) as (_ & _ & ? & _).
  - by destruct (cut_points_near_exact (length X)) as (_ & _ & _ & ?).
  - by destruct (cut_points_exact_below_90 (length X)).
  - by destruct (cut_points_exact_below_90 (length X)).
Qed.

(** C3: the three blocks together are a rearrangement of the input rows:
    no row is dropped or duplicated, and the row count is kept. *)
Theorem shuffle_and_split_Permutation g X :
  ∃ train validation test,
    shuffle_and_split g X = Ok (train, validation, test) ∧
    train ++ validation ++ test ≡ₚ X ∧
    length train + length validation + length test = length X.
Proof.
  eexists _, _, _. split; [apply shuffle_and_split_eq|].
  destruct (cut_points_ordered (length X)) as [H1 H2].
  rewrite three_blocks by done. split.
  - apply random_shuffle_Permutation.
  - rewrite !length_take, !length_drop, random_shuffle_length. lia.
Qed.

(** C10: the split step returns on every input; on no rows it gives
    three empty blocks, on one row the row goes to the test block. *)
Theorem shuffle_and_split_total g :
  (∀ X, is_Ok (shuffle_and_split g X)) ∧
  shuffle_and_split g (@nil A) = Ok ([], [], []) ∧
  (∀ r : A, shuffle_and_split g [r] = Ok ([], [], [r])).
Proof.
  split; [|split].
  - intros X. eexists. apply shuffle_and_split_eq.
  - reflexivity.
  - intros r. reflexivity.
Qed.

End splitter.

(** C2, as stated, fails at 90 rows: 0.7 * 90 is 62.99999999999999 in
    binary64, so the first block has 62 rows where the exact floor of
    63 is claimed. *)
Lemma shuffle_and_split_90_rows :
  ∃ train validation test,
    shuffle_and_split (λ _, 0) (seq 0 90) = Ok (train, validation, test) ∧
    length train = 62 ∧
    length train ≠ exact_cut_0_7 (length (seq 0 90)).
Proof.
  eexists _, _, _. split; [apply shuffle_and_split_eq|].
  split; [vm_compute; reflexivity|vm_compute; lia].
Qed.


(** ** The category vocabulary: [np.unique] *)

Section unique.
Implicit Types (l : list string) (x prev : string).

Lemma keep_changes_elem_of prev l x :
  x ∈ NpStat.keep_changes prev l → x ∈ l.
Proof.
  revert prev. induction l as [|y l IH]; intros prev; simpl; [done|].
  destruct (String.eqb prev y).
  - intros Hx. right. by eapply IH.
  - intros [->|Hx]%elem_of_cons; [left|right; by eapply IH].
Qed.

Lemma elem_of_keep_changes prev l x :
  x ∈ l → x = prev ∨ x ∈ NpStat.keep_changes prev l.
Proof.
  revert prev. induction l as [|y l IH]; intros prev; simpl.
  - by intros ?%elem_of_nil.
  - intros [->|Hx]%elem_of_cons.
    + destruct (String.eqb_spec prev y) as [->|]; [by left|right; left].
    + destruct (IH y Hx) as [->|Hin].
      * destruct (String.eqb_spec prev y) as [->|]; [by left|right; left].
      * right. destruct (String.eqb prev y); [done|by right].
Qed.

Lemma keep_changes_Sorted prev l :
  Sorted String.le (prev :: l) →
  Sorted (strict String.le) (prev :: NpStat.keep_changes prev l).
Proof.
  revert prev. induction l as [|y l IH]; intros prev Hs; simpl.
  - repeat constructor.
  - apply Sorted_inv in Hs as [Hs Hhd]. apply HdRel_inv in Hhd.
    destruct (String.eqb_spec prev y) as [->|Hne]; [by apply IH|].
    constructor; [by apply IH|]. constructor.
    by apply strict_spec_alt.
Qed.

Lemma unique_Sorted l : Sorted (strict String.le) (NpStat.unique l).
Proof.
  unfold NpStat.unique.
  pose proof (Sorted_merge_sort String.le l) as Hs.
  destruct (merge_sort String.le l); [constructor|].
  by apply keep_changes_Sorted.
Qed.

Lemma elem_of_unique l x : x ∈ NpStat.unique l ↔ x ∈ l.
Proof.
  unfold NpStat.unique.
  rewrite <- (merge_sort_Permutation String.le l) at 2.
  destruct (merge_sort String.le l) as [|y s]; [done|].
  rewrite !elem_of_cons. split.
  - intros [->|Hx]; [by left|right; by eapply keep_changes_elem_of].
  - intros [->|Hx]; [by left|]. by apply elem_of_keep_changes.
Qed.

Lemma StronglySorted_strict_NoDup l :
  StronglySorted (strict String.le) l → NoDup l.
Proof.
  induction 1 as [|x l Hl IH Hx]; constructor; [|done].
  intros Hin. rewrite Forall_forall in Hx.
  by apply (irreflexivity (strict String.le) x), Hx.
Qed.

Lemma NoDup_unique l : NoDup (NpStat.unique l).
Proof.
  apply StronglySorted_strict_NoDup, Sorted_StronglySorted; [apply _|].
  apply unique_Sorted.
Qed.

(** The vocabulary has one entry per distinct value. *)
Lemma unique_length l : length (NpStat.unique l) = length (remove_dups l).
Proof.
  apply Permutation_length, NoDup_Permutation.
  - apply NoDup_unique.
  - apply NoDup_remove_dups.
  - intros x. by rewrite elem_of_unique, elem_of_remove_dups.
Qed.

(** Its order depends on the set of values only, not on the order or
    the multiplicity in which the rows show them. *)
Lemma unique_canonical l1 l2 :
  (∀ x, x ∈ l1 ↔ x ∈ l2) → NpStat.unique l1 = NpStat.unique l2.
Proof.
  intros Hset.
  apply (Sorted_unique_strong (strict String.le)); [|apply unique_Sorted..|].
  - intros x1 x2 _ _ H12 H21.
    destruct (irreflexivity (strict String.le) x1). by etrans.
  - apply NoDup_Permutation; [apply NoDup_unique..|].
    intros x. by rewrite !elem_of_unique.
Qed.

End unique.

(** ** The fitted transformer, row by row *)

Lemma mapM_Ok {A B} (f : A → result B) (g : A → B) (l : list A) :
  (∀ x, f x = Ok (g x)) → mapM f l = Ok (g <$> l).
Proof.
  intros Hf. induction l as [|x l IH]; [done|].
  simpl. rewrite Hf. simpl. rewrite IH. done.
Qed.

Lemma zip_with_fmap_same {A B C D} (h : B → C → D) (f1 : A → B) (f2 : A → C) (l : list A) :
  zip_with h (f1 <$> l) (f2 <$> l) = (λ x, h (f1 x) (f2 x)) <$> l.
Proof. induction l as [|x l IH]; [done|]. csimpl. by rewrite IH. Qed.

Section rows_of_the_transformer.
Context {F : Type} `{FloatOps F}.
Implicit Types (df : list (Row.t F)) (r : Row.t F) (f : Sklearn.fitted (F:=F)).
Implicit Types (cats : list string) (v : string).

Lemma onehot_vector_length cats v :
  length (Sklearn.onehot_vector (F:=F) cats v) = length cats.
Proof. unfold Sklearn.onehot_vector. by rewrite length_fmap. Qed.

Lemma onehot_vector_lookup cats v p c :
  cats !! p = Some c →
  Sklearn.onehot_vector (F:=F) cats v !! p
  = Some (if String.eqb v c then fone else fzero).
Proof.
  intros Hp. unfold Sklearn.onehot_vector. by rewrite list_lookup_fmap, Hp.
Qed.

(** A value outside the vocabulary matches no category. *)
Lemma onehot_vector_unknown cats v :
  v ∉ cats → Sklearn.onehot_vector (F:=F) cats v = replicate (length cats) fzero.
Proof.
  unfold Sklearn.onehot_vector.
  induction cats as [|c cats IH]; intros Hv; [done|].
  apply not_elem_of_cons in Hv as [Hne Hv]. csimpl.
  destruct (String.eqb_spec v c) as [->|_]; [done|].
  by rewrite IH.
Qed.

(** Under [handle_unknown="ignore"] the encoder never raises. *)
Lemma onehot_value_ignore cats v :
  Sklearn.onehot_value (F:=F) Sklearn.HU_ignore cats v
  = Ok (Sklearn.onehot_vector cats v).
Proof.
  unfold Sklearn.onehot_value. case_decide as Hv; [done|].
  by rewrite onehot_vector_unknown.
Qed.

(** Under [handle_unknown="error"] an unknown value raises. *)
Lemma onehot_value_error cats v :
  v ∉ cats →
  Sklearn.onehot_value (F:=F) Sklearn.HU_error cats v = Raise ValueError.
Proof. intros Hv. unfold Sklearn.onehot_value. by case_decide. Qed.

Lemma categorical_transform_eq cats (col : list (option string)) :
  Sklearn.categorical_transform (F:=F) cats col
  = Ok ((λ o, Sklearn.onehot_vector cats (Sklearn.constant_imputer o)) <$> col).
Proof.
  unfold Sklearn.categorical_transform, Sklearn.onehot_transform.
  rewrite (mapM_Ok _ (Sklearn.onehot_vector cats)) by apply onehot_value_ignore.
  by rewrite <- list_fmap_compose.
Qed.

Lemma hstack_rows (p : Sklearn.numeric_params) cats df :
  Sklearn.hstack
    (Sklearn.numeric_transform p (numeric_values <$> df))
    ((λ o, Sklearn.onehot_vector cats (Sklearn.constant_imputer o))
       <$> (categorical_value <$> df))
  = Sklearn.row_of (Sklearn.Fitted p cats false) <$> df.
Proof.
  unfold Sklearn.hstack, Sklearn.numeric_transform, Sklearn.scaler_transform,
    Sklearn.median_imputer_transform.
  rewrite <- !list_fmap_compose.
  by rewrite zip_with_fmap_same.
Qed.

Lemma matrix_rows_wrap b (rows : list (list F)) :
  Sklearn.matrix_rows (Sklearn.wrap b rows) = rows.
Proof. by destruct b. Qed.

(** [transform] raises on an empty table only; otherwise every record
    is mapped on its own, by the fitted parameters. *)
Lemma transform_eq f df :
  df ≠ [] →
  Sklearn.transform f df
  = Ok (Sklearn.wrap (Sklearn.sparse_output_ f) (Sklearn.row_of f <$> df)).
Proof.
  intros Hne. unfold Sklearn.transform. case_decide; [done|].
  rewrite categorical_transform_eq. simpl.
  rewrite hstack_rows. by destruct f.
Qed.

(** [fit_transform] returns what [transform] gives on the same table
    with the parameters it fitted. *)
Lemma fit_transform_eq df f M :
  Sklearn.fit_transform df = Ok (f, M) →
  df ≠ [] ∧
  Sklearn.numeric_fit (numeric_values <$> df) = Ok (Sklearn.num_ f) ∧
  Sklearn.categories_ f
  = NpStat.unique (Sklearn.constant_imputer <$> (categorical_value <$> df)) ∧
  M = Sklearn.wrap (Sklearn.sparse_output_ f) (Sklearn.row_of f <$> df) ∧
  Sklearn.transform f df = Ok M.
Proof.
  unfold Sklearn.fit_transform. intros Hfit.
  destruct (Sklearn.numeric_fit (numeric_values <$> df)) as [p|e] eqn:Hp;
    [|done].
  simpl in Hfit. rewrite categorical_transform_eq in Hfit. simpl in Hfit.
  rewrite hstack_rows in Hfit.
  assert (df ≠ []) as Hne.
  { intros ->. unfold Sklearn.numeric_fit, Sklearn.median_imputer_fit in Hp.
    by case_decide. }
  injection Hfit as <- <-. simpl.
  repeat split; [done|].
  by rewrite transform_eq.
Qed.

End rows_of_the_transformer.

Section applying_the_fitted_transformer.
Context {F : Type} `{FloatOps F}.
Implicit Types (df : list (Row.t F)) (r : Row.t F) (f : Sklearn.fitted (F:=F)).

(** C5: a record whose category the fitted encoder has not seen is
    transformed without an error, and the one-hot block of its row is
    all zeros. *)
Theorem transform_unknown_category f df i r :
  df !! i = Some r →
  Sklearn.constant_imputer (categorical_value r) ∉ Sklearn.categories_ f →
  ∃ M, Sklearn.transform f df = Ok M ∧
       Sklearn.matrix_rows M !! i
       = Some (Sklearn.numeric_row (Sklearn.num_ f) (numeric_values r)
               ++ replicate (length (Sklearn.categories_ f)) fzero).
Proof.
  intros Hi Hv.
  assert (df ≠ []) as Hne by (intros ->; done).
  eexists. split; [by apply transform_eq|].
  rewrite matrix_rows_wrap, list_lookup_fmap, Hi. simpl.
  unfold Sklearn.row_of. by rewrite onehot_vector_unknown.
Qed.

(** After a successful [fit_transform] the estimator holds the fitted
    parameters, and [transform] on the fit table returns the matrix
    [fit_transform] returned, leaving the estimator as it is. *)
Lemma transform_method_after_fit self df0 M0 self' :
  Sklearn.fit_transform_method self df0 = (Ok M0, self') →
  Sklearn.transform_method self' df0 = (Ok M0, self').
Proof.
  unfold Sklearn.fit_transform_method. intros Hfit.
  destruct (Sklearn.fit_transform df0) as [[f M]|e] eqn:Hft; [|done].
  injection Hfit as -> <-. simpl.
  by apply fit_transform_eq in Hft as (_ & _ & _ & _ & ->).
Qed.

End applying_the_fitted_transformer.

Lemma transform_unknown_category_witness :
  ∃ M, Sklearn.transform sample_fitted [sample_unseen] = Ok M ∧
       Sklearn.matrix_rows M !! 0
       = Some (Sklearn.numeric_row (Sklearn.num_ sample_fitted)
                 (numeric_values sample_unseen)
               ++ replicate (length (Sklearn.categories_ sample_fitted)) fzero).
Proof.
  apply (transform_unknown_category sample_fitted [sample_unseen] 0 sample_unseen).
  - reflexivity.
  - apply (bool_decide_unpack _). vm_compute. exact I.
Defined.

(** ** The ingested record *)

(** C1, as the code has it: the record names every declared feature,
    once and in the declared order, but its values are the literals of
    the call, whatever the table and the time of the run. *)
Theorem put_record_literal {F} (df_fs : list (Row.t F)) (current_time_sec : Z) :
  feature_definition.*1 = feature_columns_names ++ ["EventTime"] ∧
  (put_record_Record df_fs current_time_sec).*1 = feature_definition.*1 ∧
  (put_record_Record df_fs current_time_sec).*2
  = ["String"; "11"; "11"; "11"; "11"; "11"; "11"; "11"; "11"] ∧
  ∀ F' (df_fs' : list (Row.t F')) current_time_sec',
    put_record_Record df_fs' current_time_sec'
    = put_record_Record df_fs current_time_sec.
Proof. repeat split. Qed.

(** ** The numeric block *)

Lemma omap_lookup_position {A B} (g : A → option B) (l : list A) j x y :
  l !! j = Some x → g x = Some y →
  omap g l !! length (omap g (take j l)) = Some y.
Proof.
  intros Hj Hg. pose proof (take_drop_middle l j x Hj) as Hl.
  set (pre := take j l) in *. set (post := drop (S j) l) in *. rewrite <- Hl.
  rewrite omap_app, lookup_app_r by lia. rewrite Nat.sub_diag.
  csimpl. by rewrite Hg.
Qed.

Section numeric_block.
Context {F : Type} `{FloatOps F}.
Implicit Types (df : list (Row.t F)) (r : Row.t F).
Implicit Types (stats row : list (option F)) (X : list (list (option F))).
Implicit Types (med : F) (c : option F).

Lemma imputer_prefix_length stats row j :
  j ≤ length row →
  length (omap (λ sc : option F * option F, s ← sc.1; Some (default s sc.2))
            (take j (zip stats row)))
  = Sklearn.kept_position stats j.
Proof.
  unfold Sklearn.kept_position, Sklearn.observed.
  revert row j. induction stats as [|s stats IH]; intros row j Hj.
  { destruct j; done. }
  destruct row as [|c row]; [by destruct j; [|simpl in Hj; lia]|].
  destruct j as [|j]; [done|]. simpl in Hj.
  csimpl. destruct s as [s|]; csimpl; rewrite IH by lia; done.
Qed.

Lemma imputer_row_lookup stats row j med c :
  stats !! j = Some (Some med) → row !! j = Some c →
  Sklearn.median_imputer_row stats row !! Sklearn.kept_position stats j
  = Some (default med c).
Proof.
  intros Hs Hc. unfold Sklearn.median_imputer_row.
  rewrite <- (imputer_prefix_length stats row j)
    by (apply Nat.lt_le_incl; by eapply lookup_lt_Some).
  apply (omap_lookup_position _ _ _ (Some med, c)).
  - apply lookup_zip_with_Some. eauto.
  - done.
Qed.

Lemma imputer_row_length stats row :
  length stats ≤ length row →
  length (Sklearn.median_imputer_row stats row) = length (Sklearn.observed stats).
Proof.
  unfold Sklearn.median_imputer_row, Sklearn.observed.
  revert row. induction stats as [|s stats IH]; intros row Hl; [done|].
  destruct row as [|c row]; [simpl in Hl; lia|]. simpl in Hl.
  csimpl. destruct s as [s|]; csimpl; rewrite IH by lia; done.
Qed.

(** A kept column lands inside the output, and kept columns keep their
    relative order. *)
Lemma kept_position_lt stats j med :
  stats !! j = Some (Some med) →
  Sklearn.kept_position stats j < length (Sklearn.observed stats).
Proof.
  intros Hs. unfold Sklearn.kept_position, Sklearn.observed.
  pose proof (take_drop_middle stats j _ Hs) as Hl.
  set (pre := take j stats) in *. set (post := drop (S j) stats) in *.
  rewrite <- Hl, omap_app, length_app. csimpl. lia.
Qed.

Lemma kept_position_increasing stats j1 j2 med :
  j1 < j2 → stats !! j1 = Some (Some med) →
  Sklearn.kept_position stats j1 < Sklearn.kept_position stats j2.
Proof.
  intros Hlt Hs.
  assert (take j2 stats !! j1 = Some (Some med)) as Hs'
    by (by rewrite lookup_take_lt).
  apply kept_position_lt in Hs'.
  unfold Sklearn.kept_position in *.
  by rewrite take_take, Nat.min_l in Hs' by lia.
Qed.

Lemma numeric_values_length r : length (numeric_values r) = 7.
Proof. done. Qed.

(** Removing ["sex"] leaves the seven float columns, in schema order. *)
Lemma numeric_features_eq :
  numeric_features
  = ["length"; "diameter"; "height"; "whole_weight"; "shucked_weight";
     "viscera_weight"; "shell_weight"].
Proof. reflexivity. Qed.

Lemma column_out_of_schema df j :
  7 ≤ j → Sklearn.column j (numeric_values <$> df) = [].
Proof.
  intros Hj. unfold Sklearn.column.
  induction df as [|r df IH]; [done|]. csimpl.
  by rewrite lookup_ge_None_2, IH by (by rewrite numeric_values_length).
Qed.

Lemma median_nil : NpStat.median (F:=F) [] = None.
Proof. done. Qed.

(** Column [j] of the imputed matrix is column [j] of the input with its
    gaps filled by the statistic. *)
Lemma column_imputed stats X j med :
  stats !! j = Some (Some med) →
  Forall (λ row, j < length row) X →
  Sklearn.column (Sklearn.kept_position stats j)
    (Sklearn.median_imputer_transform stats X)
  = default med <$> Sklearn.column j X.
Proof.
  intros Hs HX. unfold Sklearn.column, Sklearn.median_imputer_transform.
  induction HX as [|row X Hrow HX IH]; [done|].
  destruct (lookup_lt_is_Some_2 row j Hrow) as [c Hc].
  csimpl. rewrite (imputer_row_lookup stats row j med c Hs Hc), Hc.
  csimpl. by rewrite IH.
Qed.

Lemma scaler_fit_lookup (X1 : list (list F)) sc q :
  Sklearn.scaler_fit X1 = Ok sc → q < Sklearn.n_features X1 →
  Sklearn.mean_ sc !! q = Some (NpStat.mean (Sklearn.column q X1)) ∧
  Sklearn.scale_ sc !! q = Some (Sklearn.fitted_scale (Sklearn.column q X1)).
Proof.
  unfold Sklearn.scaler_fit. intros Hfit Hq.
  repeat case_decide; [done..|]. injection Hfit as <-. simpl.
  by rewrite <- !list_fmap_compose, !list_lookup_fmap, !lookup_seq_lt.
Qed.

Lemma scaler_row_lookup sc (row1 : list F) q mu s x :
  Sklearn.mean_ sc !! q = Some mu → Sklearn.scale_ sc !! q = Some s →
  row1 !! q = Some x →
  Sklearn.scaler_row sc row1 !! q = Some (Sklearn.scale_value mu s x).
Proof.
  intros Hmu Hs Hx. unfold Sklearn.scaler_row.
  apply lookup_zip_with_Some. eexists (mu, s), x. split; [done|]. split; [|done].
  apply lookup_zip_with_Some. eauto.
Qed.

Lemma numeric_fit_inv X p :
  Sklearn.numeric_fit X = Ok p →
  X ≠ [] ∧
  Sklearn.statistics_ p
  = (λ j, NpStat.median (Sklearn.observed (Sklearn.column j X)))
      <$> seq 0 (Sklearn.n_features X) ∧
  Sklearn.scaler_fit (Sklearn.median_imputer_transform (Sklearn.statistics_ p) X)
  = Ok (Sklearn.scaler_ p).
Proof.
  unfold Sklearn.numeric_fit, Sklearn.median_imputer_fit. intros Hfit.
  case_decide as HX; [done|]. simpl in Hfit.
  destruct (Sklearn.scaler_fit _) as [sc|e] eqn:Hsc; [|done].
  injection Hfit as <-. done.
Qed.

Lemma n_features_numeric df : df ≠ [] → Sklearn.n_features (numeric_values <$> df) = 7.
Proof. by destruct df. Qed.

Lemma n_features_imputed stats df :
  df ≠ [] → length stats = 7 →
  Sklearn.n_features (Sklearn.median_imputer_transform stats (numeric_values <$> df))
  = length (Sklearn.observed stats).
Proof.
  intros Hne Hl. destruct df as [|r df]; [done|]. simpl.
  apply imputer_row_length. rewrite Hl, numeric_values_length. done.
Qed.

(** The transformed value of numeric feature [j] of a record, for a
    feature that has a median: where it stands in the numeric block and
    what it is. *)
Lemma numeric_row_lookup df p j med r c :
  Sklearn.numeric_fit (numeric_values <$> df) = Ok p →
  NpStat.median (Sklearn.observed (Sklearn.column j (numeric_values <$> df))) = Some med →
  numeric_values r !! j = Some c →
  let imputed := default med <$> Sklearn.column j (numeric_values <$> df) in
  Sklearn.statistics_ p !! j = Some (Some med) ∧
  Sklearn.numeric_row p (numeric_values r)
    !! Sklearn.kept_position (Sklearn.statistics_ p) j
  = Some (Sklearn.scale_value (NpStat.mean imputed)
            (Sklearn.fitted_scale imputed)
            (default med c)).
Proof.
  intros Hfit Hmed Hc imputed.
  apply numeric_fit_inv in Hfit as (Hne & Hstats & Hsc).
  assert (df ≠ []) as Hdf by (by intros ->).
  rewrite n_features_numeric in Hstats by done.
  assert (j < 7) as Hj.
  { destruct (decide (j < 7)) as [|Hge]; [done|].
    rewrite column_out_of_schema in Hmed by lia.
    change (Sklearn.observed []) with (@nil F) in Hmed.
    by rewrite median_nil in Hmed. }
  assert (Sklearn.statistics_ p !! j = Some (Some med)) as Hsj.
  { by rewrite Hstats, list_lookup_fmap, lookup_seq_lt, <- Hmed. }
  split; [done|].
  pose proof (kept_position_lt _ _ _ Hsj) as Hpos.
  destruct (scaler_fit_lookup _ _ (Sklearn.kept_position (Sklearn.statistics_ p) j) Hsc)
    as [Hmu Hs].
  { rewrite n_features_imputed; [done..|]. by rewrite Hstats, length_fmap, length_seq. }
  rewrite (column_imputed _ _ j med Hsj) in Hmu, Hs.
  2,3: apply Forall_fmap, Forall_true; intros r'; exact Hj.
  unfold Sklearn.numeric_row.
  apply (scaler_row_lookup _ _ _ _ _ _ Hmu Hs).
  by apply imputer_row_lookup.
Qed.

Lemma numeric_row_length df p r :
  Sklearn.numeric_fit (numeric_values <$> df) = Ok p →
  length (Sklearn.numeric_row p (numeric_values r))
  = length (Sklearn.observed (Sklearn.statistics_ p)) ∧
  0 < length (Sklearn.observed (Sklearn.statistics_ p)).
Proof.
  intros Hfit.
  apply numeric_fit_inv in Hfit as (Hne & Hstats & Hsc).
  assert (df ≠ []) as Hdf by (by intros ->).
  rewrite n_features_numeric in Hstats by done.
  assert (length (Sklearn.statistics_ p) = 7) as Hl
    by (by rewrite Hstats, length_fmap, length_seq).
  pose proof (n_features_imputed _ _ Hdf Hl) as Hn.
  unfold Sklearn.scaler_fit in Hsc. repeat case_decide; [done..|].
  injection Hsc as Hsc.
  unfold Sklearn.numeric_row, Sklearn.scaler_row. rewrite <- Hsc. simpl.
  rewrite length_zip_with, length_zip, !length_fmap, length_seq, Hn.
  rewrite imputer_row_length by (by rewrite Hl, numeric_values_length).
  lia.
Qed.

End numeric_block.

(** ** Layout of the transformed matrix *)

Section layout.
Context {F : Type} `{FloatOps F}.
Implicit Types (df : list (Row.t F)) (r : Row.t F) (f : Sklearn.fitted (F:=F)).

(** The matrix exists exactly when the transformer returns a dense
    array; each of its rows is the label followed by the transformer's
    row for the record. *)
Lemma transformed_matrix_inv df X :
  transformed_matrix df = Ok X →
  ∃ f, Sklearn.fit_transform df = Ok (f, Sklearn.Dense (Sklearn.row_of f <$> df)) ∧
       Sklearn.sparse_output_ f = false ∧
       X = (λ r, Row.rings r :: (Some <$> Sklearn.row_of f r)) <$> df.
Proof.
  unfold transformed_matrix. intros HX.
  destruct (Sklearn.fit_transform df) as [[f M]|e] eqn:Hft; [|done].
  pose proof Hft as (_ & _ & _ & -> & _)%fit_transform_eq.
  simpl in HX. exists f.
  destruct (Sklearn.sparse_output_ f); [done|]. simpl in HX.
  case_decide; [|done]. injection HX as <-.
  repeat split. unfold y_pre. by rewrite zip_with_fmap_same.
Qed.

Lemma transformed_matrix_dense df f rows :
  Sklearn.fit_transform df = Ok (f, Sklearn.Dense rows) →
  transformed_matrix df
  = Ok ((λ r, Row.rings r :: (Some <$> Sklearn.row_of f r)) <$> df).
Proof.
  intros Hft. unfold transformed_matrix. rewrite Hft. simpl.
  apply fit_transform_eq in Hft as (_ & _ & _ & HM & _).
  destruct (Sklearn.sparse_output_ f); [done|]. injection HM as ->.
  unfold y_pre. rewrite !length_fmap. case_decide; [|done].
  by rewrite zip_with_fmap_same.
Qed.

Lemma transformed_matrix_sparse df f rows :
  Sklearn.fit_transform df = Ok (f, Sklearn.Sparse rows) →
  transformed_matrix df = Raise ValueError.
Proof. intros Hft. unfold transformed_matrix. by rewrite Hft. Qed.

End layout.

(** C9, as stated, fails on a table with a numeric feature that is
    missing throughout: the imputer drops that feature, and the rows
    hold six numeric columns, not seven. *)
Lemma transformed_matrix_drops_empty_feature :
  ∃ X, transformed_matrix table_gaps = Ok X ∧
       Forall (λ row, length row = 1 + 6 + 2) X ∧
       ¬ Forall (λ row, length row = 1 + 7 + 2) X.
Proof.
  eexists. split; [vm_compute; reflexivity|]. split.
  - repeat constructor.
  - intros [Hrow _]%Forall_cons. vm_compute in Hrow. discriminate.
Qed.

(** C6, as stated, fails on the same table: the height column has no
    non-missing value, hence no median, and is removed instead of being
    imputed; and the length column is constant, so its standard
    deviation is 0 and the values are divided by 1 instead. *)
Lemma numeric_transformer_gaps :
  ∃ f M,
    Sklearn.fit_transform table_gaps = Ok (f, M) ∧
    Sklearn.statistics_ (Sklearn.num_ f) !! 2 = Some None ∧
    Forall (λ row, length row = 6 + 2) (Sklearn.matrix_rows M) ∧
    NpStat.std (Sklearn.observed (Sklearn.column 0 (numeric_values <$> table_gaps)))
    = 0%Q ∧
    Sklearn.scale_ (Sklearn.scaler_ (Sklearn.num_ f)) !! 0 = Some 1%Q.
Proof.
  eexists _, _. split; [vm_compute; reflexivity|].
  repeat split; repeat constructor.
Qed.

(** ** Shape of the transformed matrix *)

Section shape.
Context {F : Type} `{FloatOps F}.
Implicit Types (df : list (Row.t F)) (r : Row.t F) (f : Sklearn.fitted (F:=F)).

Lemma median_is_Some (l : list F) : l ≠ [] → is_Some (NpStat.median l).
Proof.
  intros Hl. unfold NpStat.median.
  pose proof (Permutation_length (merge_sort_Permutation NpStat.fle_rel l)) as Hlen.
  set (s := merge_sort NpStat.fle_rel l) in *.
  assert (0 < length s) as Hpos.
  { rewrite Hlen. destruct l; [done|simpl; lia]. }
  case_decide; [lia|].
  assert (length s `div` 2 < length s) as Hhalf by (apply Nat.div_lt; lia).
  destruct (lookup_lt_is_Some_2 s (length s `div` 2) Hhalf) as [b Hb].
  destruct (lookup_lt_is_Some_2 s (length s `div` 2 - 1) ltac:(lia)) as [a Ha].
  rewrite Ha, Hb. destruct (Nat.even (length s)); simpl; eauto.
Qed.

Lemma observed_length_all (l : list (option F)) :
  Forall is_Some l → length (Sklearn.observed l) = length l.
Proof.
  unfold Sklearn.observed. induction 1 as [|o l [x ->] _ IH]; [done|].
  csimpl. by rewrite IH.
Qed.

Lemma observed_column_nonempty df j :
  df ≠ [] → complete df → j < 7 →
  Sklearn.observed (Sklearn.column j (numeric_values <$> df)) ≠ [].
Proof.
  intros Hne Hc Hj. destruct df as [|r0 df]; [done|].
  apply Forall_cons in Hc as [Hr0 _].
  destruct (lookup_lt_is_Some_2 (numeric_values r0) j Hj) as [c0 Hc0].
  destruct (Forall_lookup_1 _ _ _ _ Hr0 Hc0) as [x ->].
  unfold Sklearn.column, Sklearn.observed. csimpl. rewrite Hc0. csimpl. done.
Qed.

(** Without missing numeric values the numeric transformer is fitted
    and keeps all seven features. *)
Lemma numeric_fit_complete df :
  df ≠ [] → complete df →
  ∃ p, Sklearn.numeric_fit (numeric_values <$> df) = Ok p ∧
       length (Sklearn.observed (Sklearn.statistics_ p)) = 7.
Proof.
  intros Hne Hc. unfold Sklearn.numeric_fit, Sklearn.median_imputer_fit.
  case_decide as HX; [by apply fmap_nil_inv in HX|]. simpl.
  rewrite n_features_numeric by done.
  set (stats := (λ j, NpStat.median _) <$> seq 0 7).
  assert (length stats = 7) as Hlen by done.
  assert (length (Sklearn.observed stats) = 7) as Hobs.
  { rewrite observed_length_all; [done|].
    apply Forall_fmap, Forall_forall. intros j [_ Hj]%elem_of_seq. simpl.
    apply median_is_Some, observed_column_nonempty; [done..|lia]. }
  unfold Sklearn.scaler_fit.
  case_decide as HX1.
  { unfold Sklearn.median_imputer_transform in HX1.
    by apply fmap_nil_inv, fmap_nil_inv in HX1. }
  rewrite n_features_imputed by done.
  case_decide; [lia|]. simpl. eexists. split; [done|]. done.
Qed.

Lemma filter_all_length {A} (P : A → Prop) `{∀ x, Decision (P x)} (l : list A) :
  Forall P l → length (filter P l) = length l.
Proof.
  induction 1 as [|x l Hx _ IH]; [done|].
  rewrite filter_cons_True by done. simpl. by rewrite IH.
Qed.

(** On a complete table the stacked output is sparse exactly from
    twenty categories on: eight stored entries per row against [7 + k]
    cells. *)
Lemma fit_transform_complete df :
  df ≠ [] → complete df →
  let k := length (remove_dups (Sklearn.constant_imputer <$> (categorical_value <$> df))) in
  ∃ f,
    Sklearn.fit_transform df
    = Ok (f, Sklearn.wrap (bool_decide (20 ≤ k)) (Sklearn.row_of f <$> df)) ∧
    length (Sklearn.categories_ f) = k ∧
    ∀ r, length (Sklearn.numeric_row (Sklearn.num_ f) (numeric_values r)) = 7.
Proof.
  intros Hne Hc k.
  destruct (numeric_fit_complete df Hne Hc) as (p & Hp & Hobs).
  assert (∀ r, length (Sklearn.numeric_row p (numeric_values r)) = 7) as Hrow.
  { intros r. destruct (numeric_row_length df p r Hp) as [-> _]. done. }
  set (cats := NpStat.unique (Sklearn.constant_imputer <$> (categorical_value <$> df))).
  assert (length cats = k) as Hk by apply unique_length.
  exists (Sklearn.Fitted p cats (bool_decide (20 ≤ k))).
  split; [|done].
  unfold Sklearn.fit_transform. rewrite Hp. simpl.
  fold cats. rewrite categorical_transform_eq. simpl.
  rewrite hstack_rows.
  assert (Sklearn.n_features (Sklearn.numeric_transform p (numeric_values <$> df)) = 7)
    as ->.
  { destruct df as [|r0 df]; [done|]. apply (Hrow r0). }
  change (Sklearn.categorical_fit (categorical_value <$> df)) with cats.
  assert (Sklearn.onehot_nnz cats
            (Sklearn.constant_imputer <$> (categorical_value <$> df)) = length df)
    as ->.
  { unfold Sklearn.onehot_nnz. rewrite filter_all_length.
    - by rewrite !length_fmap.
    - apply Forall_forall. intros v Hv. by apply elem_of_unique. }
  rewrite Hk.
  assert (Sklearn.below_sparse_threshold (length df * 7 + length df)
            (length df * 7 + length df * k) = bool_decide (20 ≤ k)) as ->.
  { unfold Sklearn.below_sparse_threshold. apply bool_decide_ext.
    assert (0 < length df) by (destruct df; [done|simpl; lia]). nia. }
  done.
Qed.

(** With complete numeric features the matrix has [n] rows of
    [1 + 7 + k] columns as long as there are at most nineteen
    categories; from twenty on the concatenation raises. *)
Lemma transformed_matrix_shape df :
  df ≠ [] → complete df →
  let k := length (remove_dups (Sklearn.constant_imputer <$> (categorical_value <$> df))) in
  (k ≤ 19 →
   ∃ X, transformed_matrix df = Ok X ∧ length X = length df ∧
        Forall (λ row, length row = 1 + 7 + k) X) ∧
  (20 ≤ k → transformed_matrix df = Raise ValueError).
Proof.
  intros Hne Hc k.
  destruct (fit_transform_complete df Hne Hc) as (f & Hft & Hk & Hrow).
  fold k in Hft, Hk. split; intros Hle.
  - rewrite bool_decide_eq_false_2 in Hft by lia.
    eexists. split; [by eapply transformed_matrix_dense|].
    split; [by rewrite length_fmap|].
    apply Forall_fmap, Forall_true. intros r. simpl.
    unfold Sklearn.row_of.
    by rewrite length_fmap, length_app, Hrow, onehot_vector_length, Hk.
  - rewrite bool_decide_eq_true_2 in Hft by lia.
    by eapply transformed_matrix_sparse.
Qed.

End shape.

(** ** The numeric columns, against the table *)

Lemma filter_length_all_iff {A} (P : A → Prop) `{∀ x, Decision (P x)} (l : list A) :
  length (filter P l) = length l ↔ Forall P l.
Proof.
  split; [|apply filter_all_length].
  induction l as [|x l IH]; [constructor|].
  destruct (decide (P x)) as [Hx|Hx].
  - rewrite filter_cons_True by done. simpl. intros [= Hl]. constructor; auto.
  - rewrite filter_cons_False by done. simpl.
    pose proof (length_filter P l). lia.
Qed.

Section columns_against_the_table.
Context {F : Type} `{FloatOps F}.
Implicit Types (df : list (Row.t F)) (r : Row.t F) (f : Sklearn.fitted (F:=F)).
Implicit Types (p : Sklearn.numeric_params (F:=F)).

Lemma median_Some_iff (l : list F) : is_Some (NpStat.median l) ↔ l ≠ [].
Proof.
  split; [|apply median_is_Some].
  intros [x Hx] ->. by rewrite median_nil in Hx.
Qed.

Lemma has_value_in_schema df j : has_value df j → j < 7.
Proof.
  intros Hv. destruct (decide (j < 7)) as [|Hge]; [done|].
  destruct Hv. by rewrite column_out_of_schema by lia.
Qed.

Lemma observed_length_filter (g : nat → option F) (P : nat → Prop)
    `{∀ i, Decision (P i)} (l : list nat) :
  (∀ i, is_Some (g i) ↔ P i) →
  length (Sklearn.observed (g <$> l)) = length (filter P l).
Proof.
  intros Hg. unfold Sklearn.observed. induction l as [|i l IH]; [done|].
  csimpl. destruct (g i) as [x|] eqn:Hgi; csimpl.
  - rewrite filter_cons_True by (apply Hg; by rewrite Hgi). simpl. by rewrite IH.
  - rewrite filter_cons_False; [done|].
    intros [x Hx]%Hg. by rewrite Hgi in Hx.
Qed.

(** The fitted statistics are the medians of the non-missing values of
    the seven numeric columns of the fit table. *)
Lemma statistics_table df p :
  Sklearn.numeric_fit (numeric_values <$> df) = Ok p →
  Sklearn.statistics_ p
  = (λ j, NpStat.median (Sklearn.observed (Sklearn.column j (numeric_values <$> df))))
      <$> seq 0 7.
Proof.
  intros (Hne & Hstats & _)%numeric_fit_inv.
  rewrite n_features_numeric in Hstats; [done|]. by intros ->.
Qed.

Lemma statistics_lookup df p j :
  Sklearn.numeric_fit (numeric_values <$> df) = Ok p → j < 7 →
  Sklearn.statistics_ p !! j
  = Some (NpStat.median (Sklearn.observed (Sklearn.column j (numeric_values <$> df)))).
Proof.
  intros Hfit Hj.
  by rewrite (statistics_table df p Hfit), list_lookup_fmap, lookup_seq_lt.
Qed.

(** The position of a feature in the imputer's output counts the
    features before it that have a value in the fit table. *)
Lemma kept_position_table df p j :
  Sklearn.numeric_fit (numeric_values <$> df) = Ok p → j ≤ 7 →
  Sklearn.kept_position (Sklearn.statistics_ p) j = kept_before df j.
Proof.
  intros Hfit Hj. rewrite (statistics_table df p Hfit).
  unfold Sklearn.kept_position, kept_before.
  rewrite <- fmap_take, take_seq, Nat.min_l by done.
  apply observed_length_filter. intros i. apply median_Some_iff.
Qed.

Lemma observed_statistics_table df p :
  Sklearn.numeric_fit (numeric_values <$> df) = Ok p →
  length (Sklearn.observed (Sklearn.statistics_ p)) = kept_before df 7.
Proof.
  intros Hfit. rewrite (statistics_table df p Hfit).
  apply observed_length_filter. intros i. apply median_Some_iff.
Qed.

Lemma kept_before_skip df j : ¬ has_value df j → kept_before df (S j) = kept_before df j.
Proof.
  intros Hv. unfold kept_before.
  rewrite seq_S, filter_app, length_app. simpl.
  rewrite filter_cons_False by done. simpl. lia.
Qed.

Lemma kept_before_increasing df j1 j2 :
  j1 < j2 → has_value df j1 → kept_before df j1 < kept_before df j2.
Proof.
  intros Hlt Hv. unfold kept_before.
  replace j2 with (j1 + S (j2 - S j1)) by lia.
  rewrite seq_app, filter_app, length_app. simpl.
  rewrite filter_cons_True by done. simpl. lia.
Qed.

Lemma kept_before_all df :
  kept_before df 7 = 7 ↔ ∀ j, j < 7 → has_value df j.
Proof.
  unfold kept_before.
  pose proof (filter_length_all_iff (has_value df) (seq 0 7)) as Hiff.
  change (length (seq 0 7)) with 7 in Hiff. rewrite Hiff, Forall_forall.
  split.
  - intros Hall j Hj. apply Hall, elem_of_seq. lia.
  - intros Hall j [_ Hj]%elem_of_seq. apply Hall. lia.
Qed.

(** The numeric block of a record's row: the entry of a feature with a
    value stands at the count of such features before it and is the
    standardized cell. *)
Lemma numeric_row_standardized df p j r c :
  Sklearn.numeric_fit (numeric_values <$> df) = Ok p →
  has_value df j → numeric_values r !! j = Some c →
  ∃ med,
    NpStat.median (Sklearn.observed (Sklearn.column j (numeric_values <$> df))) = Some med ∧
    Sklearn.numeric_row p (numeric_values r) !! kept_before df j
    = Some (standardized (Sklearn.column j (numeric_values <$> df)) med c).
Proof.
  intros Hfit Hv Hc. destruct (median_is_Some _ Hv) as [med Hmed].
  exists med. split; [done|].
  destruct (numeric_row_lookup df p j med r c Hfit Hmed Hc) as [_ Hrow].
  rewrite <- (kept_position_table df p j Hfit)
    by (apply has_value_in_schema in Hv; lia).
  exact Hrow.
Qed.

(** C6 (as amended): the fitted statistic of each of the seven numeric
    features is the median of its non-missing fit values.  A feature
    without a non-missing fit value has the statistic NaN and takes no
    place in the output: the numeric block of every row has one entry
    per feature with a value, a feature standing at the count of such
    features before it.  For a feature with a value, in every table the
    fitted transformer is applied to (the fit table included), a
    missing cell takes the median, and the cell is then reduced by the
    mean of the filled fit column and divided by its standard deviation
    [sqrt v], or by 1 when the variance [v] of the filled fit column is
    within [n * eps * v + (n * mean * eps) ** 2]. *)
Theorem numeric_transformer_value df f M :
  Sklearn.fit_transform df = Ok (f, M) →
  let stats := Sklearn.statistics_ (Sklearn.num_ f) in
  (∀ j, j < 7 →
     stats !! j
     = Some (NpStat.median (Sklearn.observed (Sklearn.column j (numeric_values <$> df))))) ∧
  (∀ j, j < 7 → ¬ has_value df j →
     stats !! j = Some None ∧ kept_before df (S j) = kept_before df j) ∧
  ∀ df' i r, df' !! i = Some r →
    ∃ M' num,
      Sklearn.transform f df' = Ok M' ∧ (df' = df → M' = M) ∧
      Sklearn.matrix_rows M' !! i
      = Some (num ++ Sklearn.onehot_vector (Sklearn.categories_ f)
                       (Sklearn.constant_imputer (categorical_value r))) ∧
      length num = kept_before df 7 ∧
      ∀ j c, has_value df j → numeric_values r !! j = Some c →
        let col := Sklearn.column j (numeric_values <$> df) in
        ∃ med,
          NpStat.median (Sklearn.observed col) = Some med ∧
          let imputed := default med <$> col in
          let n := fof_nat (length imputed) in
          let mu := NpStat.mean imputed in
          let v := NpStat.var imputed in
          let bound := fadd (fmul (fmul n feps) v)
                            (fmul (fmul (fmul n mu) feps) (fmul (fmul n mu) feps)) in
          num !! kept_before df j
          = Some (fdiv (fsub (default med c) mu) (if fle v bound then fone else fsqrt v)).
Proof.
  intros Hft stats.
  apply fit_transform_eq in Hft as (Hne & Hnum & Hcats & HM & Htr).
  split; [intros j Hj; by apply statistics_lookup|].
  split.
  { intros j Hj Hv. split; [|by apply kept_before_skip].
    unfold stats. rewrite (statistics_lookup df _ j Hnum Hj). f_equal.
    destruct (NpStat.median _) as [med|] eqn:Hmed; [|done].
    destruct Hv. apply median_Some_iff. by rewrite Hmed. }
  intros df' i r Hi.
  assert (df' ≠ []) as Hne' by (by intros ->).
  exists (Sklearn.wrap (Sklearn.sparse_output_ f) (Sklearn.row_of f <$> df')),
    (Sklearn.numeric_row (Sklearn.num_ f) (numeric_values r)).
  split; [by apply transform_eq|]. split.
  { intros ->. rewrite transform_eq in Htr by done. by injection Htr. }
  split; [by rewrite matrix_rows_wrap, list_lookup_fmap, Hi|].
  split.
  { destruct (numeric_row_length df _ r Hnum) as [-> _].
    by apply observed_statistics_table. }
  intros j c Hv Hc col.
  destruct (numeric_row_standardized df _ j r c Hnum Hv Hc) as (med & Hmed & Hrow).
  exists med. split; [done|]. exact Hrow.
Qed.

(** C9 (as amended): whenever the transformed matrix is produced, each
    of its rows starts with the label of the record; then come the
    transformed numeric features, one for each of the seven features
    that has a non-missing value in the table and none for the others,
    in schema order: feature [j] stands at the count of the features
    with a value before it, so there are seven exactly when every
    feature has a value; then comes one indicator per category, in the
    strictly increasing order of the vocabulary, which holds exactly
    the values of the filled sex column and is the same for every table
    showing the same set of values. *)
Theorem transformed_matrix_layout df X :
  transformed_matrix df = Ok X →
  ∃ f M,
    Sklearn.fit_transform df = Ok (f, M) ∧
    let cats := Sklearn.categories_ f in
    length X = length df ∧
    numeric_features
    = ["length"; "diameter"; "height"; "whole_weight"; "shucked_weight";
       "viscera_weight"; "shell_weight"] ∧
    Sorted (strict String.le) cats ∧
    (∀ v, v ∈ cats ↔ v ∈ Sklearn.constant_imputer <$> (categorical_value <$> df)) ∧
    (∀ df' f' M',
       Sklearn.fit_transform df' = Ok (f', M') →
       (∀ v, v ∈ Sklearn.constant_imputer <$> (categorical_value <$> df)
             ↔ v ∈ Sklearn.constant_imputer <$> (categorical_value <$> df')) →
       Sklearn.categories_ f' = cats) ∧
    (∀ j1 j2, j1 < j2 → has_value df j1 → kept_before df j1 < kept_before df j2) ∧
    (∀ j, ¬ has_value df j → kept_before df (S j) = kept_before df j) ∧
    (kept_before df 7 = 7 ↔ ∀ j, j < 7 → has_value df j) ∧
    ∀ i r, df !! i = Some r →
      ∃ num,
        X !! i = Some (Row.rings r :: (Some <$> num)
                       ++ (Some <$> Sklearn.onehot_vector cats
                                      (Sklearn.constant_imputer (categorical_value r)))) ∧
        length num = kept_before df 7 ∧
        numeric_values r
        = [Row.length r; Row.diameter r; Row.height r; Row.whole_weight r;
           Row.shucked_weight r; Row.viscera_weight r; Row.shell_weight r] ∧
        (∀ j c,
           has_value df j → numeric_values r !! j = Some c →
           ∃ med,
             NpStat.median (Sklearn.observed (Sklearn.column j (numeric_values <$> df)))
             = Some med ∧
             num !! kept_before df j
             = Some (standardized (Sklearn.column j (numeric_values <$> df)) med c)) ∧
        (∀ q c, cats !! q = Some c →
           (Sklearn.onehot_vector (F:=F) cats
              (Sklearn.constant_imputer (categorical_value r))) !! q
           = Some (if String.eqb (Sklearn.constant_imputer (categorical_value r)) c
                   then fone else fzero)).
Proof.
  intros (f & Hft & Hdense & ->)%transformed_matrix_inv.
  exists f, (Sklearn.Dense (Sklearn.row_of f <$> df)). split; [done|].
  apply fit_transform_eq in Hft as (Hne & Hnum & Hcats & _ & _).
  intros cats. split; [by rewrite length_fmap|].
  split; [reflexivity|].
  split; [unfold cats; rewrite Hcats; apply unique_Sorted|].
  split; [intros v; unfold cats; rewrite Hcats; apply elem_of_unique|].
  split.
  { intros df' f' M' (_ & _ & -> & _)%fit_transform_eq Hset.
    unfold cats. rewrite Hcats. symmetry. by apply unique_canonical. }
  split; [apply kept_before_increasing|].
  split; [apply kept_before_skip|].
  split; [apply kept_before_all|].
  intros i r Hi.
  exists (Sklearn.numeric_row (Sklearn.num_ f) (numeric_values r)).
  split; [|split; [|split; [|split]]].
  - rewrite list_lookup_fmap, Hi. simpl. unfold Sklearn.row_of.
    by rewrite fmap_app.
  - destruct (numeric_row_length df _ r Hnum) as [-> _].
    by apply observed_statistics_table.
  - reflexivity.
  - intros j c Hv Hc. by apply numeric_row_standardized.
  - intros q c Hq. by apply onehot_vector_lookup.
Qed.

End columns_against_the_table.

Lemma numeric_transformer_value_witness :
  ∃ f M, Sklearn.fit_transform sample_table = Ok (f, M) ∧
         Sklearn.statistics_ (Sklearn.num_ f) !! 0
         = Some (NpStat.median
                   (Sklearn.observed (Sklearn.column 0 (numeric_values <$> sample_table)))).
Proof.
  destruct (Sklearn.fit_transform sample_table) as [[f M]|e] eqn:Hft;
    [|vm_compute in Hft; discriminate].
  exists f, M. split; [reflexivity|].
  refine (proj1 (numeric_transformer_value sample_table f M Hft) 0 _). lia.
Defined.

Lemma transformed_matrix_layout_witness :
  ∃ X, transformed_matrix sample_table = Ok X ∧ length X = length sample_table.
Proof.
  destruct (transformed_matrix sample_table) as [X|e] eqn:HX;
    [|vm_compute in HX; discriminate].
  exists X. split; [reflexivity|].
  destruct (transformed_matrix_layout sample_table X HX) as (f & M & _ & Hlen & _).
  exact Hlen.
Defined.


(** C4 on a table the script can be given: twenty complete records with
    twenty different sex codes.  The transformer returns a sparse
    matrix of 20 rows and 7 + 20 columns, and the concatenation with
    the label column raises instead of giving the 20 x 28 matrix. *)
Theorem transformed_matrix_twenty_categories :
  length table_twenty = 20 ∧
  length (remove_dups (categorical_value <$> table_twenty)) = 20 ∧
  (∃ f rows, Sklearn.fit_transform table_twenty = Ok (f, Sklearn.Sparse rows) ∧
             length rows = 20 ∧ Forall (λ row, length row = 7 + 20) rows) ∧
  transformed_matrix table_twenty = Raise ValueError.
Proof.
  split; [reflexivity|]. split; [vm_compute; reflexivity|]. split.
  - eexists _, _. split; [vm_compute; reflexivity|].
    split; [reflexivity|]. repeat constructor.
  - vm_compute. reflexivity.
Qed.

(** * Further properties of the script *)

(** ** [merge_two_dicts] *)

Section merge_two_dicts.
Context {V : Type}.
Implicit Types (h : gmap positive (gmap string V)) (dx dy : gmap string V).

Lemma merge_two_dicts_eq x y h dx dy :
  h !! x = Some dx → h !! y = Some dy →
  PyDict.merge_two_dicts x y h
  = Some (fresh (dom h), <[fresh (dom h) := dy ∪ dx]> h).
Proof.
  intros Hx Hy.
  pose proof (is_fresh (dom h)) as Hz.
  assert (y ≠ fresh (dom h)) as Hyz.
  { intros ->. apply Hz, elem_of_dom. eauto. }
  unfold PyDict.merge_two_dicts, PyDict.copy, PyDict.update.
  rewrite Hx. simpl.
  rewrite lookup_insert_eq. simpl.
  rewrite lookup_insert_ne by done. rewrite Hy. simpl.
  by rewrite insert_insert_eq.
Qed.

(** X1: the merged dict holds, under every key, the value of [y] when [y]
    has the key and the value of [x] otherwise. *)
Theorem merge_two_dicts_entries x y h dx dy :
  h !! x = Some dx → h !! y = Some dy →
  ∃ z h' d,
    PyDict.merge_two_dicts x y h = Some (z, h') ∧ h' !! z = Some d ∧
    dom d = dom dx ∪ dom dy ∧
    ∀ k, d !! k = match dy !! k with Some v => Some v | None => dx !! k end.
Proof.
  intros Hx Hy. eexists _, _, _.
  split; [by apply merge_two_dicts_eq|].
  split; [by rewrite lookup_insert_eq|].
  split; [by rewrite dom_union_L, (comm_L (∪))|].
  intros k. rewrite lookup_union. by destruct (dy !! k), (dx !! k).
Qed.

(** X2: the result is a new object: its reference was not in use, and every
    object of the store, the two arguments included, is left as it was,
    also when both arguments are the same dict. *)
Theorem merge_two_dicts_new_copy x y h dx dy :
  h !! x = Some dx → h !! y = Some dy →
  ∃ z h',
    PyDict.merge_two_dicts x y h = Some (z, h') ∧
    h !! z = None ∧ z ≠ x ∧ z ≠ y ∧
    h' !! x = Some dx ∧ h' !! y = Some dy ∧
    ∀ l, l ≠ z → h' !! l = h !! l.
Proof.
  intros Hx Hy. eexists _, _.
  split; [by apply merge_two_dicts_eq|].
  pose proof (is_fresh (dom h)) as Hz.
  assert (h !! fresh (dom h) = None) as Hnone by (by apply not_elem_of_dom).
  assert (fresh (dom h) ≠ x) as Hzx by (intros E; rewrite E in Hnone; congruence).
  assert (fresh (dom h) ≠ y) as Hzy by (intros E; rewrite E in Hnone; congruence).
  repeat split; try done.
  - by rewrite lookup_insert_ne.
  - by rewrite lookup_insert_ne.
  - intros l Hl. by rewrite lookup_insert_ne.
Qed.

End merge_two_dicts.

Lemma merge_two_dicts_entries_witness :
  ∃ z h' d,
    PyDict.merge_two_dicts 1%positive 2%positive module_dicts = Some (z, h') ∧
    h' !! z = Some d ∧
    dom d = dom feature_columns_dtype ∪ dom label_column_dtype ∧
    ∀ k, d !! k = match label_column_dtype !! k with
                  | Some v => Some v
                  | None => feature_columns_dtype !! k
                  end.
Proof.
  apply (merge_two_dicts_entries 1%positive 2%positive module_dicts
           feature_columns_dtype label_column_dtype); reflexivity.
Defined.

Lemma merge_two_dicts_new_copy_witness :
  ∃ z h',
    PyDict.merge_two_dicts 1%positive 1%positive module_dicts = Some (z, h') ∧
    module_dicts !! z = None ∧ z ≠ 1%positive ∧ z ≠ 1%positive ∧
    h' !! 1%positive = Some feature_columns_dtype ∧
    h' !! 1%positive = Some feature_columns_dtype ∧
    ∀ l, l ≠ z → h' !! l = module_dicts !! l.
Proof.
  apply (merge_two_dicts_new_copy 1%positive 1%positive module_dicts
           feature_columns_dtype feature_columns_dtype); reflexivity.
Defined.

(** ** The schema tables *)

(** X3: the four tables of the script agree: [dtype=] has exactly the
    columns of [names=] as keys, and the feature group declares exactly
    the feature columns, each with the type of its dtype, followed by
    the event-time field; the record identifier and the event time are
    declared features. *)
Theorem schema_tables_agree :
  ∃ d, read_csv_dtype = Some d ∧
       (∀ name, is_Some (d !! name) ↔ name ∈ read_csv_names) ∧
       omap (λ name, feature_type_of <$> d !! name) feature_columns_names ++ [FT_Fractional]
       = feature_definition.*2 ∧
       feature_definition.*1 = feature_columns_names ++ [Run.event_time_name] ∧
       Run.record_identifier_name ∈ feature_columns_names ∧
       label_column ∉ feature_definition.*1.
Proof.
  unfold read_csv_dtype.
  rewrite (merge_two_dicts_eq 1%positive 2%positive module_dicts
             feature_columns_dtype label_column_dtype) by reflexivity.
  simpl. rewrite lookup_insert_eq. eexists. split; [reflexivity|].
  split; [|split; [|split; [|split]]].
  - intros name. rewrite <- elem_of_dom, dom_union_L.
    unfold label_column_dtype, feature_columns_dtype, read_csv_names,
      feature_columns_names, label_column.
    rewrite !dom_list_to_map_L. simpl.
    rewrite !elem_of_union, !elem_of_singleton, !elem_of_cons, !elem_of_empty,
      elem_of_nil. tauto.
  - vm_compute. reflexivity.
  - reflexivity.
  - apply (bool_decide_unpack _). vm_compute. exact I.
  - apply (bool_decide_unpack _). vm_compute. exact I.
Qed.

(** ** [numeric_features.remove("sex")] *)

(** X4: removing a name that occurs in a list takes out one occurrence and
    keeps the other names in their order; if the names are distinct the
    removed one is gone. *)
Theorem py_remove_present x l :
  x ∈ l →
  l ≡ₚ x :: py_remove x l ∧
  sublist (py_remove x l) l ∧
  (NoDup l → (x ∉ py_remove x l) ∧ ∀ y, y ∈ py_remove x l ↔ y ∈ l ∧ y ≠ x).
Proof.
  intros Hx.
  assert (l ≡ₚ x :: py_remove x l) as Hperm.
  { induction l as [|y l IH]; [by apply elem_of_nil in Hx|]. simpl.
    destruct (String.eqb_spec x y) as [->|Hne]; [done|].
    apply elem_of_cons in Hx as [?|Hx]; [done|].
    rewrite (IH Hx) at 1. apply Permutation_swap. }
  assert (sublist (py_remove x l) l) as Hsub.
  { clear. induction l as [|y l IH]; [done|]. simpl.
    destruct (String.eqb x y); [by apply sublist_cons|by apply sublist_skip]. }
  split; [done|]. split; [done|].
  intros Hnd. rewrite Hperm in Hnd. apply NoDup_cons in Hnd as [Hnin _].
  split; [done|]. intros y. rewrite Hperm at 2. rewrite elem_of_cons.
  split; [|by intros [[->|Hy] Hne]]. intros Hy. split; [by right|]. by intros ->.
Qed.

Lemma py_remove_present_witness :
  feature_columns_names ≡ₚ "sex" :: numeric_features ∧
  sublist numeric_features feature_columns_names ∧
  (NoDup feature_columns_names →
   ("sex" ∉ numeric_features) ∧
   ∀ y, y ∈ numeric_features ↔ y ∈ feature_columns_names ∧ y ≠ "sex").
Proof.
  apply (py_remove_present "sex" feature_columns_names).
  apply (bool_decide_unpack _). vm_compute. exact I.
Defined.

(** ** The command-line argument, in general *)

Lemma str_split_segments_free sep s :
  Forall (λ t, count_char sep t = 0) (Py.str_split sep s).
Proof.
  induction s as [|c s IH]; simpl; [by repeat constructor|].
  destruct (Ascii.eqb c sep) eqn:Hc; [by constructor|].
  destruct (Py.str_split sep s) as [|h t]; simpl.
  - repeat constructor. simpl. by rewrite Hc.
  - apply Forall_cons in IH as [Hh Ht]. constructor; [|done].
    simpl. by rewrite Hc.
Qed.

(** X5: the argument is refused exactly when it has fewer than three
    segments, and then with an IndexError. *)
Theorem parse_input_data_raises input_data e :
  parse_input_data input_data = Raise e
  ↔ e = IndexError ∧ count_char slash input_data < 2.
Proof.
  unfold parse_input_data, Py.getitem.
  pose proof (str_split_length slash input_data) as Hlen.
  destruct (Py.str_split slash input_data !! 2) as [b|] eqn:Hb; simpl.
  - apply lookup_lt_Some in Hb. split; [done|]. intros [_ ?]. lia.
  - apply lookup_ge_None in Hb. split.
    + intros [= <-]. split; [done|lia].
    + by intros [-> _].
Qed.

(** X6: what is taken apart can be put together again: the bucket is the
    third segment and holds no separator, and the argument is the two
    leading segments, the bucket and, when anything follows the bucket,
    a separator and the key; with exactly three segments the key is the
    empty string. *)
Theorem parse_input_data_rebuild input_data bucket key :
  parse_input_data input_data = Ok (bucket, key) →
  count_char slash bucket = 0 ∧
  ∃ s0 s1,
    count_char slash s0 = 0 ∧ count_char slash s1 = 0 ∧
    ((count_char slash input_data = 2 ∧ key = EmptyString ∧
      input_data = s0 +:+ "/" +:+ s1 +:+ "/" +:+ bucket)
     ∨ (2 < count_char slash input_data ∧
        input_data = s0 +:+ "/" +:+ s1 +:+ "/" +:+ bucket +:+ "/" +:+ key)).
Proof.
  unfold parse_input_data, Py.getitem, Py.slice_from.
  pose proof (str_split_length slash input_data) as Hlen.
  pose proof (str_split_segments_free slash input_data) as Hfree.
  pose proof (str_join_split slash input_data) as Hjoin.
  destruct (Py.str_split slash input_data) as [|s0 [|s1 [|b rest]]]; [done..|].
  simpl. intros [= <- <-].
  apply Forall_cons in Hfree as [H0 Hfree].
  apply Forall_cons in Hfree as [H1 Hfree].
  apply Forall_cons in Hfree as [Hb _].
  split; [done|]. exists s0, s1. split; [done|]. split; [done|].
  simpl in Hlen. destruct rest as [|r rest].
  - left. split; [simpl in Hlen; lia|]. split; [done|]. by rewrite <- Hjoin.
  - right. split; [simpl in Hlen; lia|]. by rewrite <- Hjoin.
Qed.

Lemma parse_input_data_rebuild_witness :
  count_char slash "sagemaker-bucket" = 0 ∧
  ∃ s0 s1,
    count_char slash s0 = 0 ∧ count_char slash s1 = 0 ∧
    ((count_char slash "s3://sagemaker-bucket/abalone/abalone-dataset.csv" = 2 ∧
      "abalone/abalone-dataset.csv" = EmptyString ∧
      "s3://sagemaker-bucket/abalone/abalone-dataset.csv"
      = s0 +:+ "/" +:+ s1 +:+ "/" +:+ "sagemaker-bucket")
     ∨ (2 < count_char slash "s3://sagemaker-bucket/abalone/abalone-dataset.csv" ∧
        "s3://sagemaker-bucket/abalone/abalone-dataset.csv"
        = s0 +:+ "/" +:+ s1 +:+ "/" +:+ "sagemaker-bucket" +:+ "/"
          +:+ "abalone/abalone-dataset.csv")).
Proof.
  apply (parse_input_data_rebuild
           "s3://sagemaker-bucket/abalone/abalone-dataset.csv"
           "sagemaker-bucket" "abalone/abalone-dataset.csv").
  reflexivity.
Defined.

(** ** The splitter, in general *)

(** Where the cut points fall for small and large row counts. *)
Lemma cut_points_apart n :
  (1 ≤ n → cut_0_85 n < n) ∧
  (2 ≤ n → 1 ≤ cut_0_7 n) ∧
  (7 ≤ n → cut_0_7 n < cut_0_85 n).
Proof.
  unfold cut_0_7, cut_0_85, Binary64.lit_0_7, Binary64.lit_0_85.
  destruct (to_int_mul_spec 6305039478318694 (Z.of_nat n))
    as (S1 & -> & Hlo1 & Hhi1); [lia..|].
  destruct (to_int_mul_spec 7656119366529843 (Z.of_nat n))
    as (S2 & -> & Hlo2 & Hhi2); [lia..|].
  destruct (of_int_spec (Z.of_nat n)) as (_ & _ & Hvlo & Hvhi); [lia|].
  set (v := Binary64.int_value (Binary64.of_int (Z.of_nat n))) in *.
  change (2 ^ 53)%Z with 9007199254740992%Z in *.
  pose proof (Z.div_mod S1 9007199254740992 ltac:(lia)) as Hd1.
  pose proof (Z.mod_pos_bound S1 9007199254740992 ltac:(lia)) as Hm1.
  pose proof (Z.div_mod S2 9007199254740992 ltac:(lia)) as Hd2.
  pose proof (Z.mod_pos_bound S2 9007199254740992 ltac:(lia)) as Hm2.
  set (q1 := (S1 / 9007199254740992)%Z) in *.
  set (q2 := (S2 / 9007199254740992)%Z) in *.
  set (r1 := (S1 `mod` 9007199254740992)%Z) in *.
  set (r2 := (S2 `mod` 9007199254740992)%Z) in *.
  repeat split; intros Hn; lia.
Qed.

Lemma cut_points_apart_from_4 n : 4 ≤ n → cut_0_7 n < cut_0_85 n.
Proof.
  intros Hn. destruct (decide (7 ≤ n)) as [H7|H7].
  - by apply cut_points_apart.
  - assert (n = 4 ∨ n = 5 ∨ n = 6) as [->|[->| ->]] by lia; vm_compute; lia.
Qed.

Section splitter_in_general.
Context {A : Type}.
Implicit Types (X : list A) (g : nat → nat).

(** X7: the three blocks are consecutive pieces of the shuffled matrix, in
    the order train, validation, test. *)
Theorem shuffle_and_split_contiguous g X :
  ∃ train validation test,
    shuffle_and_split g X = Ok (train, validation, test) ∧
    train ++ validation ++ test = Np.random_shuffle g X.
Proof.
  eexists _, _, _. split; [apply shuffle_and_split_eq|].
  apply three_blocks, cut_points_ordered.
Qed.

(** X8: a non-empty input always leaves rows for the test block; the train
    block has rows from two input rows on, the validation block from
    four on. *)
Theorem shuffle_and_split_nonempty g X :
  ∃ train validation test,
    shuffle_and_split g X = Ok (train, validation, test) ∧
    (1 ≤ length X → test ≠ []) ∧
    (2 ≤ length X → train ≠ []) ∧
    (4 ≤ length X → validation ≠ []).
Proof.
  eexists _, _, _. split; [apply shuffle_and_split_eq|].
  destruct (cut_points_ordered (length X)) as [H1 H2].
  destruct (cut_points_apart (length X)) as (Ha & Hb & _).
  pose proof (cut_points_apart_from_4 (length X)) as Hc.
  repeat split; intros Hn Hnil; apply (f_equal length) in Hnil;
    rewrite ?length_take, ?length_drop, random_shuffle_length in Hnil;
    simpl in Hnil; specialize (Ha ltac:(lia)); try specialize (Hb ltac:(lia));
    try specialize (Hc ltac:(lia)); lia.
Qed.

(** X9: for every row count a machine can hold, each block size is the one
    the exact floors give or differs from it by one row. *)
Theorem shuffle_and_split_near_exact g X :
  (Z.of_nat (length X) < 2 ^ 49)%Z →
  ∃ train validation test,
    shuffle_and_split g X = Ok (train, validation, test) ∧
    exact_cut_0_7 (length X) - 1 ≤ length train ≤ exact_cut_0_7 (length X) ∧
    length X - exact_cut_0_85 (length X) ≤ length test
      ≤ length X - exact_cut_0_85 (length X) + 1 ∧
    exact_cut_0_85 (length X) - exact_cut_0_7 (length X) - 1 ≤ length validation
      ≤ exact_cut_0_85 (length X) - exact_cut_0_7 (length X) + 1.
Proof.
  intros Hn. eexists _, _, _. split; [apply shuffle_and_split_eq|].
  destruct (cut_points_ordered (length X)) as [H1 H2].
  destruct (cut_points_near_exact (length X) Hn) as (Ha & Hb & Hc & Hd).
  rewrite !length_take, !length_drop, random_shuffle_length. lia.
Qed.

Lemma shuffle_from_no_exchange g i X :
  (∀ j, Np.random_interval g j = j) → Np.shuffle_from g i X = X.
Proof.
  intros Hg. revert X. induction i as [|i IH]; intros X; simpl; [done|].
  rewrite Hg, IH. unfold Np.swap. by case_decide.
Qed.

(** X10: when every draw picks the row itself the order of the rows is kept,
    and the blocks are the top, the middle and the bottom of the input. *)
Theorem shuffle_and_split_no_exchange g X :
  (∀ j, Np.random_interval g j = j) →
  shuffle_and_split g X
  = Ok (take (cut_0_7 (length X)) X,
        take (cut_0_85 (length X) - cut_0_7 (length X)) (drop (cut_0_7 (length X)) X),
        drop (cut_0_85 (length X)) X).
Proof.
  intros Hg. rewrite shuffle_and_split_eq.
  unfold Np.random_shuffle. by rewrite shuffle_from_no_exchange.
Qed.

End splitter_in_general.

Lemma shuffle_and_split_near_exact_witness :
  ∃ train validation test,
    shuffle_and_split (λ _, 0) (seq 0 90) = Ok (train, validation, test) ∧
    exact_cut_0_7 (length (seq 0 90)) - 1 ≤ length train
      ≤ exact_cut_0_7 (length (seq 0 90)) ∧
    length (seq 0 90) - exact_cut_0_85 (length (seq 0 90)) ≤ length test
      ≤ length (seq 0 90) - exact_cut_0_85 (length (seq 0 90)) + 1 ∧
    exact_cut_0_85 (length (seq 0 90)) - exact_cut_0_7 (length (seq 0 90)) - 1
      ≤ length validation
      ≤ exact_cut_0_85 (length (seq 0 90)) - exact_cut_0_7 (length (seq 0 90)) + 1.
Proof.
  apply (shuffle_and_split_near_exact (λ _, 0) (seq 0 90)).
  vm_compute. reflexivity.
Defined.

Lemma shuffle_and_split_no_exchange_witness :
  shuffle_and_split (λ j, j) [0; 1; 2; 3; 4; 5; 6; 7; 8; 9]
  = Ok ([0; 1; 2; 3; 4; 5; 6], [7], [8; 9]).
Proof.
  apply (shuffle_and_split_no_exchange (λ j, j) [0; 1; 2; 3; 4; 5; 6; 7; 8; 9]).
  intros j. apply Nat.mod_small. lia.
Defined.

(** ** The transformer, in general *)

Lemma omap_length_le {A B} (g : A → option B) (l : list A) :
  length (omap g l) ≤ length l.
Proof.
  induction l as [|x l IH]; [done|]. csimpl. destruct (g x); simpl; lia.
Qed.

Lemma remove_dups_nonempty (l : list string) : l ≠ [] → 0 < length (remove_dups l).
Proof.
  destruct l as [|x l]; [done|]. intros _.
  assert (x ∈ remove_dups (x :: l)) as Hx by (apply elem_of_remove_dups; left).
  destruct (remove_dups (x :: l)); [by apply elem_of_nil in Hx|simpl; lia].
Qed.

Section transformer_in_general.
Context {F : Type} `{FloatOps F}.
Implicit Types (df : list (Row.t F)) (r : Row.t F) (f : Sklearn.fitted (F:=F)).
Implicit Types (stats : list (option F)).

Lemma median_imputer_fit_inv df stats :
  Sklearn.median_imputer_fit (numeric_values <$> df) = Ok stats →
  df ≠ [] ∧ length stats = 7 ∧
  stats = (λ j, NpStat.median (Sklearn.observed (Sklearn.column j (numeric_values <$> df))))
            <$> seq 0 7.
Proof.
  unfold Sklearn.median_imputer_fit. case_decide as HX; [done|].
  intros [= <-].
  assert (df ≠ []) as Hne by (by intros ->).
  rewrite n_features_numeric by done.
  by rewrite length_fmap, length_seq.
Qed.

(** The numeric transformer is fitted exactly when some numeric feature
    has a median. *)
Lemma numeric_fit_outcome df stats :
  Sklearn.median_imputer_fit (numeric_values <$> df) = Ok stats →
  (length (Sklearn.observed stats) = 0 →
   Sklearn.numeric_fit (numeric_values <$> df) = Raise ValueError) ∧
  (0 < length (Sklearn.observed stats) →
   ∃ sc, Sklearn.numeric_fit (numeric_values <$> df)
         = Ok (Sklearn.NumericParams stats sc)).
Proof.
  intros Hfit.
  pose proof (median_imputer_fit_inv df stats Hfit) as (Hne & Hlen & _).
  unfold Sklearn.numeric_fit. rewrite Hfit. simpl.
  unfold Sklearn.scaler_fit.
  case_decide as HX1.
  { unfold Sklearn.median_imputer_transform in HX1.
    by apply fmap_nil_inv, fmap_nil_inv in HX1. }
  rewrite n_features_imputed by done.
  split; intros Hm; case_decide; try lia; [done|].
  simpl. by eexists.
Qed.

Lemma fit_transform_outcome df stats :
  Sklearn.median_imputer_fit (numeric_values <$> df) = Ok stats →
  let m := length (Sklearn.observed stats) in
  let k := length (remove_dups (Sklearn.constant_imputer <$> (categorical_value <$> df))) in
  (m = 0 → Sklearn.fit_transform df = Raise ValueError) ∧
  (0 < m →
   ∃ f, Sklearn.fit_transform df
        = Ok (f, Sklearn.wrap (bool_decide (10 * (m + 1) < 3 * (m + k)))
                   (Sklearn.row_of f <$> df)) ∧
        Sklearn.statistics_ (Sklearn.num_ f) = stats ∧
        length (Sklearn.categories_ f) = k).
Proof.
  intros Hfit m k.
  pose proof (median_imputer_fit_inv df stats Hfit) as (Hne & Hlen & _).
  destruct (numeric_fit_outcome df stats Hfit) as [H0 H1].
  split; intros Hm.
  { unfold Sklearn.fit_transform. by rewrite (H0 Hm). }
  destruct (H1 Hm) as [sc Hp].
  set (p := Sklearn.NumericParams stats sc) in *.
  set (cats := NpStat.unique (Sklearn.constant_imputer <$> (categorical_value <$> df))).
  assert (length cats = k) as Hk by apply unique_length.
  exists (Sklearn.Fitted p cats (bool_decide (10 * (m + 1) < 3 * (m + k)))).
  split; [|done].
  unfold Sklearn.fit_transform. rewrite Hp. simpl.
  change (Sklearn.categorical_fit (categorical_value <$> df)) with cats.
  rewrite categorical_transform_eq. simpl.
  rewrite hstack_rows.
  assert (Sklearn.n_features (Sklearn.numeric_transform p (numeric_values <$> df)) = m)
    as ->.
  { destruct df as [|r0 df]; [done|].
    by destruct (numeric_row_length (r0 :: df) p r0 Hp) as [? _]. }
  assert (Sklearn.onehot_nnz cats
            (Sklearn.constant_imputer <$> (categorical_value <$> df)) = length df)
    as ->.
  { unfold Sklearn.onehot_nnz. rewrite filter_all_length.
    - by rewrite !length_fmap.
    - apply Forall_forall. intros v Hv. by apply elem_of_unique. }
  rewrite Hk.
  assert (Sklearn.below_sparse_threshold (length df * m + length df)
            (length df * m + length df * k)
          = bool_decide (10 * (m + 1) < 3 * (m + k))) as ->.
  { unfold Sklearn.below_sparse_threshold. apply bool_decide_ext.
    assert (0 < length df) by (destruct df; [done|simpl; lia]). nia. }
  done.
Qed.

(** X11: when the transform step raises: on a table without a row, on a
    table in which no numeric feature has a non-missing value, and, with
    [m] features having one and [k] categories, when the density
    [(m + 1) / (m + k)] of the stacked columns is below 0.3.  Every
    failure is a ValueError. *)
Theorem transformed_matrix_raises df :
  let m := kept_before df 7 in
  let k := length (remove_dups (Sklearn.constant_imputer <$> (categorical_value <$> df))) in
  (df = [] ∨ m = 0 ∨ 10 * (m + 1) < 3 * (m + k) →
   transformed_matrix df = Raise ValueError) ∧
  (∀ e, transformed_matrix df = Raise e → e = ValueError).
Proof.
  intros m k.
  destruct (Sklearn.median_imputer_fit (numeric_values <$> df)) as [stats|e'] eqn:Hfit.
  - destruct (fit_transform_outcome df stats Hfit) as [H0 H1].
    pose proof (median_imputer_fit_inv df stats Hfit) as (Hne & _ & Hstats).
    assert (length (Sklearn.observed stats) = m) as Hm.
    { rewrite Hstats. apply observed_length_filter. intros i. apply median_Some_iff. }
    rewrite Hm in H0, H1. fold k in H1.
    assert (m = 0 → transformed_matrix df = Raise ValueError) as Hzero.
    { intros Hz. unfold transformed_matrix. by rewrite (H0 Hz). }
    assert (0 < m → 10 * (m + 1) < 3 * (m + k) →
            transformed_matrix df = Raise ValueError) as Hsparse.
    { intros Hpos Hd. destruct (H1 Hpos) as (f & Hft & _).
      rewrite bool_decide_eq_true_2 in Hft by done.
      by eapply transformed_matrix_sparse. }
    split.
    + intros [->|[Hz|Hd]]; [done|by apply Hzero|].
      destruct (decide (m = 0)) as [Hz|Hz]; [by apply Hzero|].
      apply Hsparse; [lia|done].
    + intros e He.
      destruct (decide (m = 0)) as [Hz|Hz].
      { rewrite (Hzero Hz) in He. by injection He. }
      destruct (decide (10 * (m + 1) < 3 * (m + k))) as [Hd|Hd].
      { rewrite (Hsparse ltac:(lia) Hd) in He. by injection He. }
      destruct (H1 ltac:(lia)) as (f & Hft & _).
      rewrite bool_decide_eq_false_2 in Hft by done.
      rewrite (transformed_matrix_dense df f _ Hft) in He. done.
  - unfold Sklearn.median_imputer_fit in Hfit. case_decide as HX; [|done].
    apply fmap_nil_inv in HX as ->.
    split; [done|]. intros e He. simpl in He. by injection He.
Qed.

(** X12: every table the fitted transformer is applied to, the fit table
    included, comes out with one row per record and the same number of
    columns in every row: one per numeric feature that had a median at
    fit time, at least one and at most seven, and one per category seen
    at fit time, at least one. *)
Theorem transform_rectangular df f M :
  Sklearn.fit_transform df = Ok (f, M) →
  let m := length (Sklearn.observed (Sklearn.statistics_ (Sklearn.num_ f))) in
  let k := length (Sklearn.categories_ f) in
  0 < m ≤ 7 ∧ 0 < k ∧
  k = length (remove_dups (Sklearn.constant_imputer <$> (categorical_value <$> df))) ∧
  ∀ df' M',
    Sklearn.transform f df' = Ok M' →
    length (Sklearn.matrix_rows M') = length df' ∧
    Forall (λ row, length row = m + k) (Sklearn.matrix_rows M').
Proof.
  intros Hft m k.
  apply fit_transform_eq in Hft as (Hne & Hnum & Hcats & _ & _).
  pose proof Hnum as (_ & Hstats & _)%numeric_fit_inv.
  rewrite n_features_numeric in Hstats by done.
  assert (k = length (remove_dups
                        (Sklearn.constant_imputer <$> (categorical_value <$> df))))
    as Hk by (unfold k; rewrite Hcats; apply unique_length).
  split; [|split; [|split; [done|]]].
  - destruct df as [|r0 df]; [done|].
    destruct (numeric_row_length (r0 :: df) _ r0 Hnum) as [_ Hpos].
    split; [done|]. unfold m, Sklearn.observed.
    etrans; [apply omap_length_le|]. by rewrite Hstats, length_fmap, length_seq.
  - rewrite Hk. apply remove_dups_nonempty.
    intros Hnil. by apply fmap_nil_inv, fmap_nil_inv in Hnil.
  - intros df' M' Htr.
    assert (df' ≠ []) as Hne'.
    { intros ->. unfold Sklearn.transform in Htr. by case_decide. }
    rewrite transform_eq in Htr by done. injection Htr as <-.
    rewrite matrix_rows_wrap. split; [by rewrite length_fmap|].
    apply Forall_fmap, Forall_true. intros r. simpl. unfold Sklearn.row_of.
    rewrite length_app, onehot_vector_length.
    by destruct (numeric_row_length df _ r Hnum) as [-> _].
Qed.

(** X13: in the output of [fit_transform] the one-hot block of every row has
    its single one at the place of the record's category in the
    vocabulary, and zeros elsewhere. *)
Theorem fit_transform_one_hot df f M i r :
  Sklearn.fit_transform df = Ok (f, M) →
  df !! i = Some r →
  ∃ p,
    Sklearn.categories_ f !! p
    = Some (Sklearn.constant_imputer (categorical_value r)) ∧
    Sklearn.matrix_rows M !! i
    = Some (Sklearn.numeric_row (Sklearn.num_ f) (numeric_values r)
            ++ <[p := fone]> (replicate (length (Sklearn.categories_ f)) fzero)).
Proof.
  intros Hft Hi.
  apply fit_transform_eq in Hft as (Hne & Hnum & Hcats & -> & _).
  set (v := Sklearn.constant_imputer (categorical_value r)).
  assert (v ∈ Sklearn.categories_ f) as Hv.
  { rewrite Hcats. apply elem_of_unique.
    apply list_elem_of_fmap. exists (categorical_value r). split; [done|].
    apply list_elem_of_fmap. exists r. split; [done|].
    by eapply list_elem_of_lookup_2. }
  assert (NoDup (Sklearn.categories_ f)) as Hnd by (rewrite Hcats; apply NoDup_unique).
  apply list_elem_of_lookup in Hv as [p Hp]. exists p. split; [done|].
  rewrite matrix_rows_wrap, list_lookup_fmap, Hi. simpl.
  unfold Sklearn.row_of. fold v. do 2 f_equal.
  apply list_eq. intros q.
  destruct (Sklearn.categories_ f !! q) as [c|] eqn:Hq.
  - rewrite (onehot_vector_lookup _ _ _ _ Hq).
    pose proof (lookup_lt_Some _ _ _ Hq) as Hlt.
    destruct (decide (q = p)) as [->|Hqp].
    + rewrite list_lookup_insert_eq by (by rewrite length_replicate).
      assert (c = v) as -> by congruence. by rewrite String.eqb_refl.
    + rewrite list_lookup_insert_ne by done.
      rewrite lookup_replicate_2 by done.
      destruct (String.eqb_spec v c) as [->|]; [|done].
      destruct Hqp. by eapply (NoDup_lookup _ q p).
  - pose proof Hq as Hge%lookup_ge_None.
    rewrite !lookup_ge_None_2; [done|..].
    + by rewrite length_insert, length_replicate.
    + by rewrite onehot_vector_length.
Qed.

End transformer_in_general.

Lemma fit_transform_rectangular_witness :
  ∃ f M, Sklearn.fit_transform sample_table = Ok (f, M) ∧
         length (Sklearn.categories_ f)
         = length (remove_dups (Sklearn.constant_imputer
                                  <$> (categorical_value <$> sample_table))).
Proof.
  destruct (Sklearn.fit_transform sample_table) as [[f M]|e] eqn:Hft;
    [|vm_compute in Hft; discriminate].
  exists f, M. split; [reflexivity|].
  destruct (transform_rectangular sample_table f M Hft) as (_ & _ & Hk & _).
  exact Hk.
Defined.

Lemma fit_transform_one_hot_witness :
  ∃ f M p, Sklearn.fit_transform sample_table = Ok (f, M) ∧
           Sklearn.categories_ f !! p = Some "F".
Proof.
  destruct (Sklearn.fit_transform sample_table) as [[f M]|e] eqn:Hft;
    [|vm_compute in Hft; discriminate].
  destruct (fit_transform_one_hot sample_table f M 1
              (Qrow (Some "F") (Some 106) (Some 84) (Some 27) (Some 135)
                 (Some 51) (Some 28) (Some 42) (Some 9))%Z Hft eq_refl)
    as (p & Hp & _).
  exists f, M, p. split; [reflexivity|exact Hp].
Defined.

(** ** The run as a whole *)

Section run_as_a_whole.
Context {F : Type} `{FloatOps F}.
Implicit Types (w : Run.world (F:=F)) (ev : Run.event (F:=F)).

Lemma bind_call_ok {B} w ev (k : unit → Run.eff B) :
  Run.succeeds w ev = true →
  Run.call w ev ≫= k = (ev :: (k ()).1, (k ()).2).
Proof.
  intros Hok. unfold mbind, Run.eff_bind, Run.call. rewrite Hok.
  by destruct (k ()).
Qed.

Lemma bind_call_fail {B} w ev (k : unit → Run.eff B) :
  Run.succeeds w ev = false →
  Run.call w ev ≫= k = ([ev], inl (Run.Failed ev)).
Proof. intros Hok. unfold mbind, Run.eff_bind, Run.call. by rewrite Hok. Qed.

Lemma bind_lift_ok {A B} (a : A) (k : A → Run.eff (F:=F) B) :
  Run.lift (Ok a) ≫= k = k a.
Proof. unfold mbind, Run.eff_bind, Run.lift. by destruct (k a). Qed.

Lemma bind_lift_raise {A B} (e : exn) (k : A → Run.eff (F:=F) B) :
  Run.lift (Raise e) ≫= k = ([], inl (Run.Exn e)).
Proof. done. Qed.

Lemma call_last w ev :
  Run.call w ev
  = ([ev], if Run.succeeds w ev then inr () else inl (Run.Failed ev)).
Proof. done. Qed.

Lemma shuffle_and_split_Ok_inv {A} g (X train validation test : list A) :
  shuffle_and_split g X = Ok (train, validation, test) →
  train ++ validation ++ test = Np.random_shuffle g X.
Proof.
  rewrite shuffle_and_split_eq. intros [= <- <- <-].
  apply three_blocks, cut_points_ordered.
Qed.

(** Take the run apart, call by call. *)
Ltac run_step w :=
  cbn beta;
  match goal with
  | |- context [Run.call w ?ev ≫= ?k] =>
      let E := fresh "Hcall" in
      destruct (Run.succeeds w ev) eqn:E;
      [rewrite (bind_call_ok w ev k E) | rewrite (bind_call_fail w ev k E)]
  | |- context [Run.lift (Ok ?a) ≫= ?k] => rewrite (bind_lift_ok a k)
  | |- context [Run.lift (Raise ?e) ≫= ?k] => rewrite (bind_lift_raise e k)
  | |- context [Run.lift ?r ≫= ?k] =>
      let E := fresh "Hpure" in destruct r eqn:E
  | |- context [Run.call w ?ev] =>
      let E := fresh "Hcall" in
      rewrite (call_last w ev); destruct (Run.succeeds w ev) eqn:E
  end.

(** X14: the calls of a run are an initial part of one fixed sequence: make
    the data directory, download, read, delete the download, write
    train, validation and test, create the feature group, wait 60
    seconds, put the record.  No call is made twice or out of turn; a
    call that raises is the last thing the run does, and a run that
    ends without an exception has made them all. *)
Theorem main_events_in_order w input_data :
  ∃ bucket key train validation test,
    (Run.main w input_data).1
      `prefix_of` Run.complete_run w bucket key train validation test ∧
    (∀ ev, (Run.main w input_data).2 = inl (Run.Failed ev) →
           last (Run.main w input_data).1 = Some ev ∧ Run.succeeds w ev = false) ∧
    ((Run.main w input_data).2 = inr () →
     (Run.main w input_data).1 = Run.complete_run w bucket key train validation test).
Proof.
  unfold Run.main.
  repeat run_step w; simpl;
    try destruct a as [bucket key];
    try (match goal with p : _ * _ * _ |- _ => destruct p as [[train validation] test] end);
    simpl.
  all: eexists _, _, _, _, _.
  all: (split; [eexists; unfold Run.complete_run; simpl; reflexivity|]).
  all: (split; [intros ev' [= <-]; by split|done]) || (split; [done|done]).
  Unshelve. all: first [exact [] | exact EmptyString].
Qed.

(** X15: a run ends without an exception exactly when the argument has its
    three segments, the transformed matrix exists and each of the ten
    calls goes through. *)
Theorem main_completes_iff w input_data :
  (Run.main w input_data).2 = inr ()
  ↔ ∃ bucket key X train validation test,
      parse_input_data input_data = Ok (bucket, key) ∧
      transformed_matrix (Run.dataset w bucket key) = Ok X ∧
      shuffle_and_split (Run.draws w) X = Ok (train, validation, test) ∧
      Forall (λ ev, Run.succeeds w ev = true)
        (Run.complete_run w bucket key train validation test).
Proof.
  split.
  - unfold Run.main.
    repeat run_step w; simpl; try done;
      try destruct a as [bucket key];
      try (match goal with p : _ * _ * _ |- _ =>
             destruct p as [[train validation] test] end);
      simpl in *; try done.
    intros _. eexists _, _, _, _, _, _.
    split; [reflexivity|]. split; [eassumption|]. split; [eassumption|].
    unfold Run.complete_run.
    repeat (apply Forall_cons; split; [assumption|]). constructor.
  - intros (bucket & key & X & train & validation & test & Hp & HX & Hs & Hall).
    unfold Run.complete_run in Hall.
    repeat (apply Forall_cons in Hall as [? Hall]).
    unfold Run.main. rewrite Hp, bind_call_ok, bind_lift_ok by done.
    cbn [fst snd]. rewrite HX.
    rewrite !bind_call_ok by done. cbn beta. rewrite bind_lift_ok, Hs, bind_lift_ok.
    cbn [fst snd]. rewrite !bind_call_ok by done. cbn beta.
    rewrite call_last.
    match goal with Hput : Run.succeeds w (Run.PutRecord _ _) = true |- _ =>
      rewrite Hput end.
    done.
Qed.

(** X16: after a run that ends without an exception the three files hold,
    between them, every row of the transformed table exactly once, one
    row per record of the table read, and the downloaded file has been
    deleted before the first of them was written. *)
Theorem main_completed_outputs w input_data :
  (Run.main w input_data).2 = inr () →
  ∃ bucket key X train validation test,
    parse_input_data input_data = Ok (bucket, key) ∧
    transformed_matrix (Run.dataset w bucket key) = Ok X ∧
    length X = length (Run.dataset w bucket key) ∧
    train ++ validation ++ test ≡ₚ X ∧
    (Run.main w input_data).1
    = Run.complete_run w bucket key train validation test.
Proof.
  unfold Run.main.
  repeat run_step w; simpl; try done;
    try destruct a as [bucket key];
    try (match goal with p : _ * _ * _ |- _ =>
           destruct p as [[train validation] test] end);
    simpl in *; try done.
  intros _. eexists _, _, _, _, _, _.
  split; [reflexivity|]. split; [eassumption|].
  split; [|split; [|reflexivity]].
  - match goal with HX : transformed_matrix _ = Ok _ |- _ =>
      apply transformed_matrix_inv in HX as (f & _ & _ & ->) end.
    by rewrite length_fmap.
  - match goal with Hs : shuffle_and_split _ _ = Ok _ |- _ =>
      apply shuffle_and_split_Ok_inv in Hs; rewrite Hs end.
    apply random_shuffle_Permutation.
Qed.

(** X17: when the transformed matrix cannot be formed the run stops there:
    the download has been read and deleted, no output file is written
    and the feature store is not called. *)
Theorem main_transform_failure w input_data bucket key e :
  parse_input_data input_data = Ok (bucket, key) →
  transformed_matrix (Run.dataset w bucket key) = Raise e →
  Forall (λ ev, Run.succeeds w ev = true)
    [Run.Mkdir (Run.base_dir +:+ "/data"); Run.DownloadFile bucket key Run.fn;
     Run.ReadCsv Run.fn; Run.Unlink Run.fn] →
  Run.main w input_data
  = ([Run.Mkdir (Run.base_dir +:+ "/data"); Run.DownloadFile bucket key Run.fn;
      Run.ReadCsv Run.fn; Run.Unlink Run.fn], inl (Run.Exn e)).
Proof.
  intros Hp HX Hall.
  repeat (apply Forall_cons in Hall as [? Hall]).
  unfold Run.main. rewrite Hp, bind_call_ok, bind_lift_ok by done.
  cbn [fst snd]. rewrite HX.
  rewrite !bind_call_ok by done. cbn beta. by rewrite bind_lift_raise.
Qed.

(** X18: an argument with fewer than three segments is found out only after
    the data directory has been made: that is the one call of the run,
    and nothing is downloaded. *)
Theorem main_bad_argument w input_data :
  count_char slash input_data < 2 →
  (Run.main w input_data).1 = [Run.Mkdir (Run.base_dir +:+ "/data")] ∧
  (Run.succeeds w (Run.Mkdir (Run.base_dir +:+ "/data")) = true →
   (Run.main w input_data).2 = inl (Run.Exn IndexError)).
Proof.
  intros Hc.
  assert (parse_input_data input_data = Raise IndexError) as Hp.
  { unfold parse_input_data, Py.getitem.
    rewrite lookup_ge_None_2; [done|]. rewrite str_split_length. lia. }
  unfold Run.main. rewrite Hp.
  destruct (Run.succeeds w (Run.Mkdir (Run.base_dir +:+ "/data"))) eqn:Hm.
  - rewrite bind_call_ok, bind_lift_raise by done. done.
  - rewrite bind_call_fail by done. done.
Qed.

End run_as_a_whole.

Lemma main_completed_outputs_witness :
  ∃ X, transformed_matrix sample_table = Ok X ∧
       (Run.main sample_world sample_input_data).2 = inr () ∧
       length X = 3.
Proof.
  assert ((Run.main sample_world sample_input_data).2 = inr ()) as Hrun
    by (vm_compute; reflexivity).
  destruct (main_completed_outputs sample_world sample_input_data Hrun)
    as (bucket & key & X & train & validation & test & _ & HX & Hlen & _).
  exists X. split; [exact HX|]. split; [exact Hrun|exact Hlen].
Defined.

Lemma main_transform_failure_witness :
  Run.main twenty_world sample_input_data
  = ([Run.Mkdir (Run.base_dir +:+ "/data");
      Run.DownloadFile "sagemaker-bucket" "abalone/abalone-dataset.csv" Run.fn;
      Run.ReadCsv Run.fn; Run.Unlink Run.fn], inl (Run.Exn ValueError)).
Proof.
  apply (main_transform_failure twenty_world sample_input_data
           "sagemaker-bucket" "abalone/abalone-dataset.csv" ValueError).
  - reflexivity.
  - vm_compute. reflexivity.
  - repeat constructor.
Defined.

Lemma main_bad_argument_witness :
  (Run.main sample_world "abalone-dataset.csv").1
  = [Run.Mkdir (Run.base_dir +:+ "/data")] ∧
  (Run.succeeds sample_world (Run.Mkdir (Run.base_dir +:+ "/data")) = true →
   (Run.main sample_world "abalone-dataset.csv").2 = inl (Run.Exn IndexError)).
Proof.
  apply (main_bad_argument sample_world "abalone-dataset.csv").
  vm_compute. lia.
Defined.
